(** * claude-langfuse-monitor: the [Monitor] class of [index.js]

    A shallow embedding of the ingestion-and-forwarding engine: the
    constructor with [loadConfig], [start] up to the registration of the
    watcher, [processExistingHistory], [processConversationFile],
    [processMessage] and [checkStatus], together with the library
    functions they depend on ([crypto]'s MD5, [path.basename] and
    [path.join] of POSIX [path], the conversions of a value to a string
    and to a date). The colours of [chalk], the registration of the
    watcher and the shutdown on SIGINT are left out.

    Conventions of the model.
    - A JavaScript string is the Rocq [string] of the bytes of its UTF-8
      encoding; a surrogate that is not part of a pair is held as the
      three bytes of its code point. Lengths and positions of the
      program count UTF-16 code units ([utf16_length], [substring0]),
      and the digest reads the encoding of [Buffer], where a lone
      surrogate is U+FFFD.
    - Paths are POSIX paths: [path.sep] is ["/"].
    - JSON numbers are modelled by the integers.
    - A JSON array or object carries the identity of the JavaScript
      reference that holds it, since [Set.prototype.has] compares
      references for such values.
    - A directory entry carries what [fs.statSync] or [fs.readdirSync]
      does on it, a result or an error. *)

From Stdlib Require Import ZArith Ascii String List Bool Lia.
From stdpp Require Import base strings gmap pretty.
Import ListNotations.

Set Warnings "-register-all".

Local Open Scope Z_scope.
Local Open Scope string_scope.

(* ===================================================================== *)
(** ** MD5 (RFC 1321), as computed by
       [crypto.createHash('md5').update(s).digest('hex')] *)
(* ===================================================================== *)

Module MD5.

Local Open Scope Z_scope.

Definition mask32 : Z := 0xffffffff.

Definition add32 (a b : Z) : Z := Z.land (a + b) mask32.

Definition not32 (a : Z) : Z := Z.lxor a mask32.

Definition rotl32 (x c : Z) : Z :=
  Z.land (Z.lor (Z.shiftl x c) (Z.shiftr x (32 - c))) mask32.

(** T[i] = floor(2^32 * |sin (i + 1)|). *)
Definition K : list Z :=
  [ 0xd76aa478; 0xe8c7b756; 0x242070db; 0xc1bdceee;
    0xf57c0faf; 0x4787c62a; 0xa8304613; 0xfd469501;
    0x698098d8; 0x8b44f7af; 0xffff5bb1; 0x895cd7be;
    0x6b901122; 0xfd987193; 0xa679438e; 0x49b40821;
    0xf61e2562; 0xc040b340; 0x265e5a51; 0xe9b6c7aa;
    0xd62f105d; 0x02441453; 0xd8a1e681; 0xe7d3fbc8;
    0x21e1cde6; 0xc33707d6; 0xf4d50d87; 0x455a14ed;
    0xa9e3e905; 0xfcefa3f8; 0x676f02d9; 0x8d2a4c8a;
    0xfffa3942; 0x8771f681; 0x6d9d6122; 0xfde5380c;
    0xa4beea44; 0x4bdecfa9; 0xf6bb4b60; 0xbebfbc70;
    0x289b7ec6; 0xeaa127fa; 0xd4ef3085; 0x04881d05;
    0xd9d4d039; 0xe6db99e5; 0x1fa27cf8; 0xc4ac5665;
    0xf4292244; 0x432aff97; 0xab9423a7; 0xfc93a039;
    0x655b59c3; 0x8f0ccc92; 0xffeff47d; 0x85845dd1;
    0x6fa87e4f; 0xfe2ce6e0; 0xa3014314; 0x4e0811a1;
    0xf7537e82; 0xbd3af235; 0x2ad7d2bb; 0xeb86d391 ].

(** Per-round left-rotation amounts. *)
Definition S : list Z :=
  [ 7; 12; 17; 22; 7; 12; 17; 22; 7; 12; 17; 22; 7; 12; 17; 22;
    5;  9; 14; 20; 5;  9; 14; 20; 5;  9; 14; 20; 5;  9; 14; 20;
    4; 11; 16; 23; 4; 11; 16; 23; 4; 11; 16; 23; 4; 11; 16; 23;
    6; 10; 15; 21; 6; 10; 15; 21; 6; 10; 15; 21; 6; 10; 15; 21 ].

Definition zth (l : list Z) (i : Z) : Z := nth (Z.to_nat i) l 0.

(** The message: the bytes, a single 1 bit, zeros up to 56 modulo 64,
    then the bit length as a 64-bit little-endian integer. *)
Definition le_bytes (n : nat) (x : Z) : list Z :=
  map (fun i => Z.land (Z.shiftr x (8 * Z.of_nat i)) 0xff) (seq 0 n).

Definition pad (msg : list Z) : list Z :=
  let len := Z.of_nat (length msg) in
  let zeros := Z.to_nat ((55 - len) mod 64) in
  msg ++ [0x80] ++ repeat 0 zeros ++ le_bytes 8 (Z.land (8 * len) 0xffffffffffffffff).

Fixpoint blocks (fuel : nat) (l : list Z) : list (list Z) :=
  match fuel with
  | O => []
  | Datatypes.S fuel' =>
      match l with
      | [] => []
      | _ => firstn 64 l :: blocks fuel' (skipn 64 l)
      end
  end.

Definition word_at (block : list Z) (g : Z) : Z :=
  zth block (4 * g)
  + Z.shiftl (zth block (4 * g + 1)) 8
  + Z.shiftl (zth block (4 * g + 2)) 16
  + Z.shiftl (zth block (4 * g + 3)) 24.

Record state := State { sa : Z; sb : Z; sc : Z; sd : Z }.

Definition init : state :=
  State 0x67452301 0xefcdab89 0x98badcfe 0x10325476.

Definition round (block : list Z) (st : state) (i : Z) : state :=
  let '(State a b c d) := st in
  let '(f, g) :=
    if i <? 16 then (Z.lor (Z.land b c) (Z.land (not32 b) d), i)
    else if i <? 32 then (Z.lor (Z.land d b) (Z.land (not32 d) c), (5 * i + 1) mod 16)
    else if i <? 48 then (Z.lxor (Z.lxor b c) d, (3 * i + 5) mod 16)
    else (Z.lxor c (Z.lor b (not32 d)), (7 * i) mod 16) in
  let f' := add32 (add32 (add32 f a) (zth K i)) (word_at block g) in
  State d (add32 b (rotl32 f' (zth S i))) b c.

Definition compress (st : state) (block : list Z) : state :=
  let st' := fold_left (round block) (map Z.of_nat (seq 0 64)) st in
  State (add32 (sa st) (sa st')) (add32 (sb st) (sb st'))
        (add32 (sc st) (sc st')) (add32 (sd st) (sd st')).

Definition digest_state (msg : list Z) : state :=
  let p := pad msg in
  fold_left compress (blocks (length p) p) init.

Definition hex_digit (n : Z) : ascii :=
  nth (Z.to_nat n)
      (list_ascii_of_string "0123456789abcdef"%string) "0"%char.

Definition byte_hex (b : Z) : string :=
  String (hex_digit (Z.shiftr b 4 mod 16)) (String (hex_digit (b mod 16)) EmptyString).

Definition word_hex (w : Z) : string :=
  (byte_hex (Z.land w 0xff)
   ++ byte_hex (Z.land (Z.shiftr w 8) 0xff)
   ++ byte_hex (Z.land (Z.shiftr w 16) 0xff)
   ++ byte_hex (Z.land (Z.shiftr w 24) 0xff))%string.

Definition state_hex (st : state) : string :=
  (word_hex (sa st) ++ word_hex (sb st)
   ++ word_hex (sc st) ++ word_hex (sd st))%string.

(** The bytes [update(s)] hashes: the UTF-8 encoding of the string,
    with U+FFFD (EF BF BD) in place of a surrogate (ED A0..BF xx). *)
Fixpoint bytes_of_string (s : string) : list Z :=
  match s with
  | EmptyString => []
  | String c s' =>
      let b := Z.of_N (N_of_ascii c) in
      match s' with
      | String c1 (String _ rest) =>
          if (b =? 0xED) && (0xA0 <=? Z.of_N (N_of_ascii c1))
          then 0xEF :: 0xBF :: 0xBD :: bytes_of_string rest
          else b :: bytes_of_string s'
      | _ => b :: bytes_of_string s'
      end
  end.

(** [crypto.createHash('md5').update(s).digest('hex')] *)
Definition hexdigest (s : string) : string :=
  state_hex (digest_state (bytes_of_string s)).

End MD5.

(* ===================================================================== *)
(** ** JavaScript values, as [JSON.parse] produces them *)
(* ===================================================================== *)

(** [ref] is the identity of the JavaScript reference of an array or an
    object. The field list of an object holds its own properties, one
    entry per key. *)
Inductive value : Type :=
| VUndefined
| VNull
| VBool (b : bool)
| VNum (n : Z)
| VStr (s : string)
| VArr (ref : positive) (elems : list value)
| VObj (ref : positive) (fields : list (string * value)).

Definition typeof (v : value) : string :=
  match v with
  | VUndefined => "undefined"
  | VNull => "object"
  | VBool _ => "boolean"
  | VNum _ => "number"
  | VStr _ => "string"
  | VArr _ _ => "object"
  | VObj _ _ => "object"
  end.

(** ToBoolean. *)
Definition truthy (v : value) : bool :=
  match v with
  | VUndefined | VNull => false
  | VBool b => b
  | VNum n => negb (n =? 0)%Z
  | VStr s => negb (String.eqb s "")
  | VArr _ _ | VObj _ _ => true
  end.

(** [a || b] *)
Definition or_else (a b : value) : value := if truthy a then a else b.

(** SameValueZero, the comparison of [Set.prototype.has] and of
    [Array.prototype.includes]: primitives by value, arrays and objects
    by reference. *)
Definition same_value_zero (a b : value) : bool :=
  match a, b with
  | VUndefined, VUndefined => true
  | VNull, VNull => true
  | VBool x, VBool y => Bool.eqb x y
  | VNum x, VNum y => (x =? y)%Z
  | VStr x, VStr y => String.eqb x y
  | VArr r _, VArr r' _ => (r =? r')%positive
  | VObj r _, VObj r' _ => (r =? r')%positive
  | _, _ => false
  end.

Definition includes (l : list value) (v : value) : bool :=
  existsb (same_value_zero v) l.

(** [a === b] on the values of the model. *)
Definition strict_eq (a b : value) : bool := same_value_zero a b.

Fixpoint assoc (k : string) (fields : list (string * value)) : value :=
  match fields with
  | [] => VUndefined
  | (k', v) :: rest => if String.eqb k k' then v else assoc k rest
  end.

(** The property read [v.k], for the keys this program reads ([type],
    [uuid], [message], [text], [timestamp], [gitBranch], [cwd],
    [parentUuid], [requestId], [host], [publicKey], [secretKey]): none
    of them is a property of a primitive's or an array's prototype. [None] is the [TypeError] of a
    read on [undefined] or [null]. *)
Definition get (v : value) (k : string) : option value :=
  match v with
  | VUndefined | VNull => None
  | VObj _ fields => Some (assoc k fields)
  | _ => Some VUndefined
  end.

(** A read on a value known not to be [undefined] or [null]. *)
Definition field (v : value) (k : string) : value :=
  match get v k with Some x => x | None => VUndefined end.

Definition typeof_null (v : value) : string :=
  match v with VNull => "null" | _ => typeof v end.

(** ** The [Set] of processed ids: insertion-ordered, without duplicates *)

Definition Set_has (s : list value) (v : value) : bool := includes s v.

Definition Set_add (s : list value) (v : value) : list value :=
  if Set_has s v then s else s ++ [v].

Definition Set_size (s : list value) : Z := Z.of_nat (length s).

(* ===================================================================== *)
(** ** Strings and paths *)
(* ===================================================================== *)

Definition newline : ascii := "010"%char.

(** [s.split(sep)] for a one-character separator. *)
Fixpoint split (sep : ascii) (s : string) : list string :=
  match s with
  | EmptyString => [EmptyString]
  | String c s' =>
      if Ascii.eqb c sep then EmptyString :: split sep s'
      else match split sep s' with
           | h :: t => String c h :: t
           | [] => [String c EmptyString]
           end
  end.

(** [l.indexOf(x)] on an array of strings: the first index, or -1. *)
Fixpoint indexOf (l : list string) (x : string) : Z :=
  match l with
  | [] => -1
  | y :: rest =>
      if String.eqb y x then 0
      else let i := indexOf rest x in if (i =? -1)%Z then -1 else i + 1
  end.

(** [l[i]] on an array of strings, [undefined] out of range. *)
Definition at_index (l : list string) (i : Z) : option string :=
  if (i <? 0)%Z then None else nth_error l (Z.to_nat i).

(** [l.pop()] as an expression: the last element. *)
Definition pop (l : list string) : option string := last l.

(** [s.replace(/c/g, d)] for single characters [c] and [d]. *)
Fixpoint replace_all (c d : ascii) (s : string) : string :=
  match s with
  | EmptyString => EmptyString
  | String x s' => String (if Ascii.eqb x c then d else x) (replace_all c d s')
  end.

(** The UTF-16 code units that the byte [c] stands for: none when it
    continues a sequence, two when it leads the four bytes of a
    character beyond the basic plane, one otherwise. *)
Definition units (c : ascii) : nat :=
  let n := N_of_ascii c in
  if (n <? 128)%N then 1%nat
  else if (n <? 192)%N then 0%nat
  else if (n <? 240)%N then 1%nat
  else if (n <? 248)%N then 2%nat
  else 1%nat.

(** [s.length] *)
Fixpoint utf16_length (s : string) : nat :=
  match s with
  | EmptyString => 0%nat
  | String c s' => (units c + utf16_length s')%nat
  end.

(** The high surrogate of the character that the lead byte [c] and the
    bytes after it encode, as the three bytes of its code point. *)
Definition high_surrogate (c : ascii) (s' : string) : string :=
  let byte := fun i =>
    match String.get i s' with
    | Some b => Z.of_N (N_of_ascii b)
    | None => 0
    end in
  let point := (Z.of_N (N_of_ascii c) mod 8) * 262144 + (byte 0%nat mod 64) * 4096
               + (byte 1%nat mod 64) * 64 + byte 2%nat mod 64 in
  let high := 0xD800 + (point - 0x10000) / 1024 in
  let of_Z := fun z => ascii_of_N (Z.to_N z) in
  String (of_Z 0xED)
    (String (of_Z (128 + (high / 64) mod 64))
       (String (of_Z (128 + high mod 64)) EmptyString)).

(** [s.substring(0, n)]: the first [n] code units; a cut between the two
    units of a character keeps its high surrogate. *)
Fixpoint substring0 (n : nat) (s : string) : string :=
  match s with
  | EmptyString => EmptyString
  | String c s' =>
      match units c, n with
      | O, _ => String c (substring0 n s')
      | _, O => EmptyString
      | S O, S n' => String c (substring0 n' s')
      | S (S _), S O => high_surrogate c s'
      | S (S _), S (S n') => String c (substring0 n' s')
      end
  end.

(** The number of bytes of the character of white space or the line
    terminator that [s] begins with, zero when it begins with none. *)
Definition white_space (s : string) : nat :=
  let byte := fun i =>
    match String.get i s with
    | Some b => N_of_ascii b
    | None => 0%N
    end in
  let b0 := byte 0%nat in
  let b1 := byte 1%nat in
  let b2 := byte 2%nat in
  if ((b0 =? 32) || ((9 <=? b0) && (b0 <=? 13)))%N then 1%nat
  else if ((b0 =? 0xC2) && (b1 =? 0xA0))%N then 2%nat
  else if ((b0 =? 0xE1) && (b1 =? 0x9A) && (b2 =? 0x80))%N then 3%nat
  else if ((b0 =? 0xE2) && (b1 =? 0x80)
           && (((0x80 <=? b2) && (b2 <=? 0x8A))
               || (b2 =? 0xA8) || (b2 =? 0xA9) || (b2 =? 0xAF)))%N then 3%nat
  else if ((b0 =? 0xE2) && (b1 =? 0x81) && (b2 =? 0x9F))%N then 3%nat
  else if ((b0 =? 0xE3) && (b1 =? 0x80) && (b2 =? 0x80))%N then 3%nat
  else if ((b0 =? 0xEF) && (b1 =? 0xBB) && (b2 =? 0xBF))%N then 3%nat
  else 0%nat.

(** [s.trim()] is a non-empty string: some character of [s] is no white
    space. [skip] counts the bytes still to pass of a character of white
    space. *)
Fixpoint nonblank_from (skip : nat) (s : string) : bool :=
  match s with
  | EmptyString => false
  | String _ s' =>
      match skip with
      | S k => nonblank_from k s'
      | O =>
          match white_space s with
          | O => true
          | S k => nonblank_from k s'
          end
      end
  end.

Definition nonblank (s : string) : bool := nonblank_from 0 s.

Fixpoint endsWith (s suffix : string) : bool :=
  String.eqb s suffix ||
  match s with
  | EmptyString => false
  | String _ s' => endsWith s' suffix
  end.

Fixpoint strip_trailing (c : ascii) (s : string) : string :=
  match s with
  | EmptyString => EmptyString
  | String x s' =>
      match strip_trailing c s' with
      | EmptyString => if Ascii.eqb x c then EmptyString else String x EmptyString
      | r => String x r
      end
  end.

(** [path.basename(p, suffix)] of POSIX [path]. The last portion of [p],
    trailing separators ignored. With a suffix that is not longer than
    [p]: nothing when [p] is the suffix; [p] itself when it holds
    separators only; the portion without the suffix when it ends with
    the suffix and is more than the suffix; the portion with the
    trailing separators when it is a proper end of the suffix. *)
Definition basename (p suffix : string) : string :=
  let trimmed := strip_trailing "/" p in
  let base := List.last (split "/" trimmed) EmptyString in
  if String.eqb suffix "" || (utf16_length p <? utf16_length suffix)%nat then base
  else if String.eqb suffix p then EmptyString
  else if String.eqb trimmed "" then p
  else if endsWith base suffix then
    if String.eqb base suffix then base
    else String.substring 0 (String.length base - String.length suffix) base
  else if endsWith suffix base then
    base ++ String.substring (String.length trimmed)
              (String.length p - String.length trimmed) p
  else base.

(** One step of [normalizeString] of POSIX [path] on the segments found
    so far, the last one first. *)
Definition normalize_step (allowAboveRoot : bool) (found : list string) (segment : string)
  : list string :=
  if String.eqb segment "" || String.eqb segment "." then found
  else if String.eqb segment ".." then
    match found with
    | top :: below =>
        if String.eqb top ".." then (if allowAboveRoot then ".." :: found else found)
        else below
    | [] => if allowAboveRoot then [".."] else []
    end
  else segment :: found.

(** [path.normalize(p)] *)
Definition normalize (p : string) : string :=
  if String.eqb p "" then "." else
  let isAbsolute := match p with String c _ => Ascii.eqb c "/" | EmptyString => false end in
  let trailingSeparator := endsWith p "/" in
  let segments := rev (fold_left (normalize_step (negb isAbsolute)) (split "/" p) []) in
  let path := String.concat "/" segments in
  if String.eqb path "" then
    if isAbsolute then "/" else if trailingSeparator then "./" else "."
  else (if isAbsolute then "/" else "")
       ++ path ++ (if trailingSeparator then "/" else "").

(** [path.join(...args)] *)
Definition path_join (args : list string) : string :=
  match List.filter (fun arg => negb (String.eqb arg "")) args with
  | [] => "."
  | parts => normalize (String.concat "/" parts)
  end.

(* ===================================================================== *)
(** ** Exceptions and the monad of the engine *)
(* ===================================================================== *)

(** A thrown [Error]; [message] is its [error.message]. *)
Inductive exn : Type :=
| TypeError (message : string)
| Error (message : string).

Definition message_of (e : exn) : string :=
  match e with TypeError m | Error m => m end.

(** How a call ends. *)
Inductive completion (A : Type) : Type :=
| Return (a : A)
| Throw (e : exn).
Arguments Return {A} a.
Arguments Throw {A} e.

(** A computation reads the environment [E], transforms the state [W]
    and returns or throws. *)
Definition M (E W A : Type) : Type := E -> W -> completion A * W.

Section Monad.
Context {E W : Type}.

Definition ret {A} (a : A) : M E W A := fun _ w => (Return a, w).

Definition throw {A} (e : exn) : M E W A := fun _ w => (Throw e, w).

Definition bind {A B} (c : M E W A) (k : A -> M E W B) : M E W B :=
  fun env w =>
    match c env w with
    | (Return a, w') => k a env w'
    | (Throw e, w') => (Throw e, w')
    end.

(** [try { c } catch (e) { handler e }] *)
Definition try_catch {A} (c : M E W A) (handler : exn -> M E W A) : M E W A :=
  fun env w =>
    match c env w with
    | (Return a, w') => (Return a, w')
    | (Throw e, w') => handler e env w'
    end.

Definition gets {A} (f : W -> A) : M E W A := fun _ w => (Return (f w), w).

Definition asks {A} (f : E -> A) : M E W A := fun env w => (Return (f env), w).

Definition modify (f : W -> W) : M E W unit := fun _ w => (Return tt, f w).

(** A call that touches neither the environment nor the state. *)
Definition lift {A} (c : completion A) : M E W A := fun _ w => (c, w).

(** An [undefined]-or-[null] read throws. *)
Definition read (v : value) (k : string) : M E W value :=
  match get v k with
  | Some x => ret x
  | None =>
      throw (TypeError ("Cannot read properties of " ++ typeof_null v
                        ++ " (reading '" ++ k ++ "')"))
  end.

(** [for (const x of l) body x] *)
Fixpoint for_of {A} (l : list A) (body : A -> M E W unit) : M E W unit :=
  match l with
  | [] => ret tt
  | x :: rest => bind (body x) (fun _ => for_of rest body)
  end.
End Monad.

Notation "x <- c ;; k" := (bind c (fun x => k))
  (at level 100, c at next level, right associativity).
Notation "c ;;; k" := (bind c (fun _ => k))
  (at level 100, right associativity).

(* ===================================================================== *)
(** ** Records of the program *)
(* ===================================================================== *)

(** [l.map(f).join(",")] where [f] may throw; the first error ends
    the call. *)
Definition join_with {A} (f : A -> completion string) : list A -> completion string :=
  fix join (l : list A) : completion string :=
    match l with
    | [] => Return EmptyString
    | x :: rest =>
        match f x with
        | Throw e => Throw e
        | Return s =>
            match rest with
            | [] => Return s
            | _ =>
                match join rest with
                | Throw e => Throw e
                | Return t => Return (s ++ "," ++ t)
                end
            end
        end
    end.

(** The object has an own property [k]. *)
Definition has_own (fields : list (string * value)) (k : string) : bool :=
  existsb (fun kv => String.eqb (fst kv) k) fields.

(** ToString on a value of JSON, as in a template literal. An object
    inherits [toString] of [Object.prototype] unless it has an own
    property of this name, which is no function for a value of JSON:
    then neither [toString] nor [valueOf] gives a primitive and the
    conversion throws. An array joins the strings of its elements. A
    number is shown in decimal, as an integer below 10^21 is. *)
Fixpoint to_string (v : value) : completion string :=
  match v with
  | VUndefined => Return "undefined"
  | VNull => Return "null"
  | VBool b => Return (if b then "true" else "false")
  | VNum n => Return (pretty n)
  | VStr s => Return s
  | VObj _ fields =>
      if has_own fields "toString"
      then Throw (TypeError "Cannot convert object to primitive value")
      else Return "[object Object]"
  | VArr _ elems =>
      join_with (fun elem =>
                   match elem with
                   | VUndefined | VNull => Return EmptyString
                   | _ => to_string elem
                   end) elems
  end.

(** [new Date(arg)], once it is constructed. *)
Inductive Date : Type := NewDate (arg : value).

(** [new Date(arg)]: the argument is converted to a primitive first,
    which throws where [to_string] throws. *)
Definition new_Date (arg : value) : completion Date :=
  match to_string arg with
  | Throw e => Throw e
  | Return _ => Return (NewDate arg)
  end.

(** The argument of [langfuse.trace]. *)
Module Trace.
Record metadata := {
  project : string;
  conversationId : string;
  gitBranch : value;
  cwd : value;
  messageType : value;
  source : string
}.
Record t := {
  id : value;
  name : string;
  sessionId : value;
  userId : string;
  meta : metadata;
  input : string;
  timestamp : Date
}.
End Trace.

(** The argument of [langfuse.generation]. *)
Module Generation.
Record metadata := {
  project : string;
  conversationId : string;
  requestId : value;
  messageType : value;
  source : string
}.
Record t := {
  id : value;
  traceId : value;
  name : string;
  model : string;
  meta : metadata;
  output : string;
  startTime : Date;
  endTime : Date
}.
End Generation.

(** The argument of [new Langfuse]. *)
Module Client.
Record t := { publicKey : value; secretKey : value; baseUrl : value }.
End Client.

(** The [options] argument of the constructor, as the command line
    passes it; [None] is an absent ([undefined]) property, and for
    [historyHours] also the [NaN] of a failed [parseInt], falsy alike. *)
Module Arg.
Record t := {
  historyHours : option Z;
  daemon : option bool;
  dryRun : option bool;
  quiet : option bool
}.
(** [options = {}] *)
Definition empty : t := Build_t None None None None.
End Arg.

(** [this.options] *)
Record Options := { historyHours : Z; daemon : bool; dryRun : bool }.

(** The Langfuse client: the four operations the engine calls. A call
    returns or throws, and leaves the client in a new state. *)
Class Langfuse (S : Type) := {
  connect : Client.t -> S;
  trace : Trace.t -> S -> completion unit * S;
  generation : Generation.t -> S -> completion unit * S;
  flushAsync : S -> completion unit * S
}.

(** The fields of a [Monitor] instance. *)
Record Monitor (S : Type) := {
  options : Options;
  processedMessages : list value;
  conversationSessions : gmap string string;
  config : value;
  langfuse : option S
}.
Arguments options {S} _.
Arguments processedMessages {S} _.
Arguments conversationSessions {S} _.
Arguments config {S} _.
Arguments langfuse {S} _.
Arguments Build_Monitor {S} _ _ _ _ _.

(** A line written by [console.log] or [console.error]; the colours of
    [chalk] are left out. *)
Inductive line : Type := Log (s : string) | Err (s : string).

(** A directory entry, with the tree below it: an entry that is no
    directory with what [fs.statSync(...).mtimeMs] gives for it, a
    directory with what [fs.readdirSync] gives for it. *)
Inductive dirent : Type :=
| File (name : string) (mtimeMs : completion Z)
| Directory (name : string) (entries : completion (list dirent)).

(** What the process finds around it. *)
Record Env := {
  Date_now : Z;
  homedir : string;
  (** what [fs.readdirSync] gives for [~/.claude/projects], when
      [fs.existsSync] holds of it *)
  projects : option (completion (list dirent));
  readFileSync : string -> completion string;
  (** whether [~/.claude-langfuse/config.json] exists *)
  configFile_exists : bool;
  LANGFUSE_HOST : option string;
  LANGFUSE_PUBLIC_KEY : option string;
  LANGFUSE_SECRET_KEY : option string
}.

(** The state a call works on: the instance, the console and the next
    reference [JSON.parse] will allocate. *)
Record World (S : Type) := {
  this : Monitor S;
  console : list line;
  next_ref : positive
}.
Arguments this {S} _.
Arguments console {S} _.
Arguments next_ref {S} _.
Arguments Build_World {S} _ _ _.

(** The mock client of [__tests__/__mocks__/langfuse.js]. *)
Module Mock.
Record t := { config : Client.t; traces : list Trace.t; generations : list Generation.t }.

Definition new (c : Client.t) : t := Build_t c [] [].

Definition trace (data : Trace.t) (s : t) : completion unit * t :=
  (Return tt, Build_t (config s) (traces s ++ [data]) (generations s)).

Definition generation (data : Generation.t) (s : t) : completion unit * t :=
  (Return tt, Build_t (config s) (traces s) (generations s ++ [data])).

Definition flushAsync (s : t) : completion unit * t := (Return tt, s).
End Mock.

#[export] Instance Mock_Langfuse : Langfuse Mock.t :=
  {| connect := Mock.new;
     trace := Mock.trace;
     generation := Mock.generation;
     flushAsync := Mock.flushAsync |}.

(** A client whose backend is unreachable: every record is refused. *)
Module Unreachable.
Definition refuse : completion unit * unit := (Throw (Error "fetch failed"), tt).
End Unreachable.

Definition Unreachable_Langfuse : Langfuse unit :=
  {| connect := fun _ => tt;
     trace := fun _ _ => Unreachable.refuse;
     generation := fun _ _ => Unreachable.refuse;
     flushAsync := fun _ => (Return tt, tt) |}.

(* ===================================================================== *)
(** ** The [Monitor] class *)
(* ===================================================================== *)

(** [x || d] for an optional number: [undefined], [NaN] and [0] are
    falsy. *)
Definition number_or (x : option Z) (d : Z) : Z :=
  match x with
  | Some n => if (n =? 0)%Z then d else n
  | None => d
  end.

(** [x || false] for an optional boolean. *)
Definition bool_or_false (x : option bool) : bool :=
  match x with Some true => true | _ => false end.

(** [x || d] for an optional string: [undefined] and [''] are falsy. *)
Definition string_or (x : option string) (d : string) : string :=
  match x with
  | Some s => if String.eqb s "" then d else s
  | None => d
  end.

(** The loop over the entries of a directory: what every entry gives,
    one after the other, until one throws. *)
Definition collect {A B} (f : A -> completion (list B)) : list A -> completion (list B) :=
  fix loop (l : list A) : completion (list B) :=
    match l with
    | [] => Return []
    | x :: rest =>
        match f x with
        | Throw e => Throw e
        | Return found =>
            match loop rest with
            | Throw e => Throw e
            | Return more => Return (found ++ more)%list
            end
        end
    end.

(** [findConversations] of [processExistingHistory]: the body of its
    loop on one entry of [dir], and the function on what
    [fs.readdirSync] gives for [dir]. *)
Fixpoint findConversations_entry (cutoffTime : Z) (dir : string) (entry : dirent)
  : completion (list string) :=
  match entry with
  | Directory name entries =>
      match entries with
      | Throw e => Throw e
      | Return entries =>
          collect (findConversations_entry cutoffTime (path_join [dir; name])) entries
      end
  | File name mtimeMs =>
      if endsWith name ".jsonl"
      then match mtimeMs with
           | Throw e => Throw e
           | Return mtimeMs =>
               if (mtimeMs >=? cutoffTime)%Z then Return [path_join [dir; name]]
               else Return []
           end
      else Return []
  end.

Definition findConversations (cutoffTime : Z) (dir : string)
    (entries : completion (list dirent)) : completion (list string) :=
  match entries with
  | Throw e => Throw e
  | Return entries => collect (findConversations_entry cutoffTime dir) entries
  end.

Section Engine.
Context {L : Type} `{!Langfuse L}.

(** [JSON.parse]: the parsed value and the next free reference, or
    [None] for a [SyntaxError]. *)
Variable JSON_parse : string -> positive -> option (value * positive).

Definition Eff (A : Type) : Type := M Env (World L) A.

(** *** The constructor

    It runs before there is an instance: its state is the next
    reference [JSON.parse] or an object literal will allocate. *)

Definition loadConfig : M Env positive value :=
  (* Try to load from config file *)
  home <- asks homedir ;;
  let configFile := path_join [home; ".claude-langfuse"; "config.json"] in
  found <- asks configFile_exists ;;
  if found then
    text <- (fun env n => (readFileSync env configFile, n)) ;;
    fun _ n =>
      match JSON_parse text n with
      | Some (config, n') => (Return config, n')
      | None => (Throw (Error "Unexpected token in JSON"), n)
      end
  else
    (* Fall back to environment variables *)
    host <- asks LANGFUSE_HOST ;;
    publicKey <- asks LANGFUSE_PUBLIC_KEY ;;
    secretKey <- asks LANGFUSE_SECRET_KEY ;;
    fun _ n =>
      (Return (VObj n [("host", VStr (string_or host "http://localhost:3001"));
                       ("publicKey", VStr (string_or publicKey ""));
                       ("secretKey", VStr (string_or secretKey ""))]),
       Pos.succ n).

Definition Monitor_new (options : Arg.t) : M Env positive (Monitor L) :=
  let opts :=
    {| historyHours := number_or (Arg.historyHours options) 24;
       daemon := bool_or_false (Arg.daemon options);
       dryRun := bool_or_false (Arg.dryRun options) |} in
  (* Load configuration *)
  config <- loadConfig ;;
  (* Initialize Langfuse client *)
  if negb (dryRun opts) then
    publicKey <- read config "publicKey" ;;
    secretKey <- read config "secretKey" ;;
    baseUrl <- read config "host" ;;
    ret {| options := opts;
           processedMessages := [];
           conversationSessions := ∅;
           config := config;
           langfuse := Some (connect {| Client.publicKey := publicKey;
                                        Client.secretKey := secretKey;
                                        Client.baseUrl := baseUrl |}) |}
  else
    ret {| options := opts;
           processedMessages := [];
           conversationSessions := ∅;
           config := config;
           langfuse := None |}.

(** *** Assignments to the state *)

Definition set_processedMessages (s : list value) (w : World L) : World L :=
  Build_World
    (Build_Monitor (options (this w)) s (conversationSessions (this w))
                   (config (this w)) (langfuse (this w)))
    (console w) (next_ref w).

Definition set_conversationSessions (m : gmap string string) (w : World L) : World L :=
  Build_World
    (Build_Monitor (options (this w)) (processedMessages (this w)) m
                   (config (this w)) (langfuse (this w)))
    (console w) (next_ref w).

Definition set_langfuse (l : option L) (w : World L) : World L :=
  Build_World
    (Build_Monitor (options (this w)) (processedMessages (this w))
                   (conversationSessions (this w)) (config (this w)) l)
    (console w) (next_ref w).

Definition set_console (c : list line) (w : World L) : World L :=
  Build_World (this w) c (next_ref w).

Definition set_next_ref (n : positive) (w : World L) : World L :=
  Build_World (this w) (console w) n.

(** *** Effects *)

Definition console_log (s : string) : Eff unit :=
  modify (fun w => set_console (console w ++ [Log s]) w).

Definition console_error (s : string) : Eff unit :=
  modify (fun w => set_console (console w ++ [Err s]) w).

(** [this.langfuse.method(...)]: a [TypeError] when no client was
    created. *)
Definition call_langfuse (method : string) (f : L -> completion unit * L) : Eff unit :=
  fun _ w =>
    match langfuse (this w) with
    | None =>
        (Throw (TypeError ("Cannot read properties of undefined (reading '"
                           ++ method ++ "')")), w)
    | Some l => let '(r, l') := f l in (r, set_langfuse (Some l') w)
    end.

Definition parse (text : string) : Eff value :=
  fun _ w =>
    match JSON_parse text (next_ref w) with
    | Some (v, n) => (Return v, set_next_ref n w)
    | None => (Throw (Error "Unexpected token in JSON"), w)
    end.

Definition fs_readFileSync (filepath : string) : Eff string :=
  fun env w => (readFileSync env filepath, w).

(** [fs.readdirSync] on the projects directory and below it, as the
    scan [f] consumes it. *)
Definition fs_scan {A} (f : completion (list dirent) -> completion A) : Eff A :=
  fun env w =>
    match projects env with
    | Some entries => (f entries, w)
    | None => (Throw (Error "ENOENT: no such file or directory, scandir"), w)
    end.

(** *** [getClaudeProjectsDir] *)

Definition getClaudeProjectsDir : Eff string :=
  fun env w =>
    let projectsDir := path_join [homedir env; ".claude"; "projects"] in
    match projects env with
    | None =>
        (Throw (Error ("Claude projects directory not found: " ++ projectsDir)), w)
    | Some _ => (Return projectsDir, w)
    end.

(** *** [processMessage] *)

(** Lines 212 to 217, on the value of [entry.message]. Where the
    [text] property is read the message is an object or an array, so
    that the read cannot throw. *)
Definition extractText (message : value) : value :=
  if truthy message && String.eqb (typeof message) "object"
  then or_else (field message "text") (VStr "")
  else if String.eqb (typeof message) "string" then message
  else VStr "".

(** The argument of [this.langfuse.trace], lines 235 to 250. *)
Definition traceData (entry msgType uuid sessionId : value)
    (projectPath conversationId text : string) (timestamp : Date) : Trace.t :=
  {| Trace.id := uuid;
     Trace.name := "claude_code_user";
     Trace.sessionId := sessionId;
     Trace.userId := "michael@oboyle.co";
     Trace.meta :=
       {| Trace.project := projectPath;
          Trace.conversationId := conversationId;
          Trace.gitBranch := field entry "gitBranch";
          Trace.cwd := field entry "cwd";
          Trace.messageType := msgType;
          Trace.source := "claude_code_automatic" |};
     Trace.input := text;
     Trace.timestamp := timestamp |}.

(** The argument of [this.langfuse.generation], lines 252 to 267. *)
Definition generationData (entry msgType uuid : value)
    (projectPath conversationId text : string) (timestamp : Date) : Generation.t :=
  {| Generation.id := uuid;
     Generation.traceId := field entry "parentUuid";
     Generation.name := "claude_response";
     Generation.model := "claude-sonnet-4-5-20250929";
     Generation.meta :=
       {| Generation.project := projectPath;
          Generation.conversationId := conversationId;
          Generation.requestId := field entry "requestId";
          Generation.messageType := msgType;
          Generation.source := "claude_code_automatic" |};
     Generation.output := text;
     Generation.startTime := timestamp;
     Generation.endTime := timestamp |}.

(** The line of the local echo, lines 222 to 226. *)
Definition echo (msgType : value) (projectPath text : string) : string :=
  let projectName := default "undefined" (pop (split "/" projectPath)) in
  let preview := replace_all newline " " (substring0 60 text) in
  let icon := if strict_eq msgType (VStr "user") then "👤" else "🤖" in
  icon ++ " [" ++ projectName ++ "] " ++ preview ++ "...".

(** Lines 211 to 277: extraction, echo and forwarding of an entry whose
    id has just been recorded. The first read throws on an entry that
    is [null] or [undefined]; the later reads of the same entry are
    therefore written with [field]. [new Date] throws on a timestamp
    that has no primitive value, and [text.substring] exists only on a
    string. *)
Definition processMessage_forward
    (entry msgType uuid sessionId : value) (projectPath conversationId : string)
  : Eff unit :=
  (* Extract message content *)
  message <- read entry "message" ;;
  let text := extractText message in
  now <- asks Date_now ;;
  timestamp <- lift (new_Date (or_else (field entry "timestamp") (VNum now))) ;;
  (* Print activity *)
  match text with
  | VStr text =>
      console_log (echo msgType projectPath text) ;;;
      dry <- gets (fun w => dryRun (options (this w))) ;;
      if dry then ret tt else
      (* Create trace in Langfuse *)
      try_catch
        ((if strict_eq msgType (VStr "user") then
            call_langfuse "trace"
              (trace (traceData entry msgType uuid sessionId
                        projectPath conversationId text timestamp))
          else if strict_eq msgType (VStr "assistant") then
            call_langfuse "generation"
              (generation (generationData entry msgType uuid
                             projectPath conversationId text timestamp))
          else ret tt) ;;;
         (* Flush periodically *)
         size <- gets (fun w => Set_size (processedMessages (this w))) ;;
         if (size mod 10 =? 0)%Z then call_langfuse "flushAsync" flushAsync else ret tt)
        (fun error => console_error ("Error creating trace: " ++ message_of error))
  | _ => throw (TypeError "text.substring is not a function")
  end.

Definition processMessage
    (entry sessionId : value) (projectPath conversationId : string) : Eff unit :=
  msgType <- read entry "type" ;;
  if negb (includes [VStr "user"; VStr "assistant"] msgType) then ret tt else
  uuid <- read entry "uuid" ;;
  seen <- gets (fun w => Set_has (processedMessages (this w)) uuid) ;;
  if negb (truthy uuid) || seen then ret tt else
  (* Mark as processed *)
  modify (fun w => set_processedMessages (Set_add (processedMessages (this w)) uuid) w) ;;;
  processMessage_forward entry msgType uuid sessionId projectPath conversationId.

(** *** [processConversationFile] *)

Definition Map_has (m : gmap string string) (k : string) : bool :=
  match m !! k with Some _ => true | None => false end.

(** [m.get(k)], [undefined] for a missing key. *)
Definition Map_get (m : gmap string string) (k : string) : value :=
  match m !! k with Some v => VStr v | None => VUndefined end.

(** Lines 169 to 176: get or create the session id of a file. *)
Definition resolveSession (filepath projectPath conversationId : string) : Eff value :=
  known <- gets (fun w => Map_has (conversationSessions (this w)) filepath) ;;
  (if negb known then
     let sessionData := projectPath ++ ":" ++ conversationId in
     let sessionId := MD5.hexdigest sessionData in
     modify (fun w =>
               set_conversationSessions
                 (<[filepath := sessionId]> (conversationSessions (this w))) w)
   else ret tt) ;;;
  gets (fun w => Map_get (conversationSessions (this w)) filepath).

(** Lines 183 to 188: the body of the loop over the lines. *)
Definition processLine (sessionId : value) (projectPath conversationId line : string)
  : Eff unit :=
  try_catch
    (entry <- parse line ;;
     processMessage entry sessionId projectPath conversationId)
    (fun _ => ret tt (* Skip invalid JSON lines *)).

Definition processConversationFile (filepath : string) : Eff unit :=
  try_catch
    ((* Extract project path from file location *)
     let pathParts := split "/" filepath in
     let projectsIdx := indexOf pathParts "projects" in
     if (projectsIdx =? -1)%Z || (projectsIdx >=? Z.of_nat (length pathParts) - 2)%Z
     then ret tt else
     match at_index pathParts (projectsIdx + 1) with
     | None =>
         throw (TypeError "Cannot read properties of undefined (reading 'replace')")
     | Some encodedProject =>
         let projectPath := replace_all "-" "/" encodedProject in
         let conversationId := basename filepath ".jsonl" in
         sessionId <- resolveSession filepath projectPath conversationId ;;
         (* Read and process messages *)
         content <- fs_readFileSync filepath ;;
         let lines := List.filter nonblank (split newline content) in
         for_of lines (processLine sessionId projectPath conversationId)
     end)
    (fun error =>
       console_error ("Error processing " ++ filepath ++ ": " ++ message_of error)).

(** *** [processExistingHistory] *)

Definition processExistingHistory : Eff unit :=
  hours <- gets (fun w => historyHours (options (this w))) ;;
  console_log ("📚 Processing last " ++ pretty hours ++ " hours...") ;;;
  projectsDir <- getClaudeProjectsDir ;;
  now <- asks Date_now ;;
  let cutoffTime := (now - hours * 3600 * 1000)%Z in
  conversations <- fs_scan (findConversations cutoffTime projectsDir) ;;
  console_log ("  Found " ++ pretty (length conversations) ++ " recent conversations") ;;;
  for_of conversations processConversationFile ;;;
  console_log ("✅ Processed " ++ pretty (length conversations) ++ " conversations").

(** *** [start], up to the creation of the watcher *)

Definition nl : string := String newline EmptyString.

Definition start : Eff unit :=
  projectsDir <- getClaudeProjectsDir ;;
  console_log ("📁 Claude projects: " ++ projectsDir) ;;;
  (* Process existing history *)
  hours <- gets (fun w => historyHours (options (this w))) ;;
  (if (hours >? 0)%Z then processExistingHistory else ret tt) ;;;
  (* Start watching for new activity *)
  console_log (nl ++ "👀 Watching for new Claude Code activity...") ;;;
  config <- gets (fun w => config (this w)) ;;
  host <- read config "host" ;;
  host <- lift (to_string host) ;;
  console_log ("🔗 Langfuse UI: " ++ host) ;;;
  console_log ("⏹  Press Ctrl+C to stop" ++ nl).

(** *** The watcher: every ['add'] and ['change'] event calls
    [processConversationFile] on its path, in the environment of the
    moment. *)
Fixpoint watch (events : list (Env * string)) (w : World L) : World L :=
  match events with
  | [] => w
  | (env, filepath) :: rest => watch rest (snd (processConversationFile filepath env w))
  end.

(** *** [checkStatus] *)

(** [s.repeat(n)] *)
Fixpoint repeat_string (s : string) (n : nat) : string :=
  match n with
  | O => EmptyString
  | S n' => s ++ repeat_string s n'
  end.

(** The [return] inside the [catch] is the [false] of the first step. *)
Definition checkStatus : Eff unit :=
  console_log "🔍 Claude Langfuse Monitor Status" ;;;
  console_log (repeat_string "=" 50) ;;;
  (* Check Claude directory *)
  found <- try_catch
             (projectsDir <- getClaudeProjectsDir ;;
              console_log "✅ Claude projects directory found" ;;;
              console_log ("   " ++ projectsDir) ;;;
              ret true)
             (fun _ =>
                console_log "❌ Claude projects directory not found" ;;;
                ret false) ;;
  if negb found then ret tt else
  (* Check configuration *)
  config <- gets (fun w => config (this w)) ;;
  publicKey <- read config "publicKey" ;;
  configured <- (if truthy publicKey
                 then secretKey <- read config "secretKey" ;; ret (truthy secretKey)
                 else ret false) ;;
  if configured
  then
    console_log "✅ Langfuse credentials configured" ;;;
    (* Check Langfuse connection *)
    host <- read config "host" ;;
    host <- lift (to_string host) ;;
    console_log ("   Host: " ++ host) ;;;
    console_log (nl ++ "✅ Monitor ready to run") ;;;
    console_log "   Start with: claude-langfuse start"
  else
    console_log "❌ Langfuse credentials not configured" ;;;
    console_log "   Run: claude-langfuse config --public-key <key> --secret-key <key>".

(** [new Monitor(options)] in a fresh process: the state the methods
    of the instance start from, when the constructor returns. *)
Definition fresh (options : Arg.t) (env : Env) : completion (World L) :=
  match Monitor_new options env 1%positive with
  | (Return monitor, n) => Return (Build_World monitor [] n)
  | (Throw e, _) => Throw e
  end.

End Engine.

(* ===================================================================== *)
(** ** Vocabulary of the statements *)
(* ===================================================================== *)

Definition is_hex (c : ascii) : bool :=
  existsb (Ascii.eqb c) (list_ascii_of_string "0123456789abcdef").

Fixpoint all_hex (s : string) : bool :=
  match s with
  | EmptyString => true
  | String c s' => is_hex c && all_hex s'
  end.

(** Every id recorded in [s] is recorded in [s']. *)
Definition ids_kept (s s' : list value) : Prop :=
  forall u, Set_has s u = true -> Set_has s' u = true.

(** The view [view] of the state after [c] is related by [rel] to the
    view before. *)
Definition keeps {E W V A : Type} (view : W -> V) (rel : V -> V -> Prop)
    (c : M E W A) : Prop :=
  forall env w, rel (view w) (view (snd (c env w))).

Section Outcomes.
Context {L : Type} `{!Langfuse L}.

(** The world once the echo line is printed. *)
Definition echoed (msgType : value) (projectPath text : string) (w : World L)
  : World L :=
  set_console (console w ++ [Log (echo msgType projectPath text)]) w.

(** The world once a forwarding error is reported. *)
Definition reported (e : exn) (w : World L) : World L :=
  set_console (console w ++ [Err ("Error creating trace: " ++ message_of e)]) w.

(** The periodic flush and the handler around it, after the record
    went to the client, which is left in state [l]. *)
Definition flushed (l : L) (w : World L) : completion unit * World L :=
  if (Set_size (processedMessages (this w)) mod 10 =? 0)%Z then
    match flushAsync l with
    | (Return _, l') => (Return tt, set_langfuse (Some l') w)
    | (Throw e, l') => (Return tt, reported e (set_langfuse (Some l') w))
    end
  else (Return tt, set_langfuse (Some l) w).

End Outcomes.

(** Line 219: [new Date(entry.timestamp || Date.now())]. *)
Definition timestamp_of (entry : value) (env : Env) : completion Date :=
  new_Date (or_else (field entry "timestamp") (VNum (Date_now env))).



(** The character [c] occurs in [s]. *)
Fixpoint contains (c : ascii) (s : string) : bool :=
  match s with
  | EmptyString => false
  | String x s' => Ascii.eqb x c || contains c s'
  end.

(** The file [name], last modified at [mtimeMs], lies at [path] in the
    tree of the directory [dir], whose entries are [entries]. *)
Inductive file_in : string -> list dirent -> string -> string -> Z -> Prop :=
| file_here dir entries name mtimeMs :
    In (File name (Return mtimeMs)) entries ->
    file_in dir entries (path_join [dir; name]) name mtimeMs
| file_below dir entries sub below path name mtimeMs :
    In (Directory sub (Return below)) entries ->
    file_in (path_join [dir; sub]) below path name mtimeMs ->
    file_in dir entries path name mtimeMs.

(** The scan can read the tree: every directory of it lists, and every
    file whose name ends with [.jsonl] has a modification time. *)
Fixpoint readable_entry (entry : dirent) : bool :=
  match entry with
  | File name (Return _) => true
  | File name (Throw _) => negb (endsWith name ".jsonl")
  | Directory _ (Return entries) => forallb readable_entry entries
  | Directory _ (Throw _) => false
  end.

Definition readable (entries : completion (list dirent)) : bool :=
  match entries with
  | Return entries => forallb readable_entry entries
  | Throw _ => false
  end.

(** What the scan finds in one entry of [dir], for a cutoff. *)
Definition entry_scope (cutoffTime : Z) (dir : string) (entry : dirent) (path : string)
  : Prop :=
  match entry with
  | File name mtimeMs =>
      exists time,
        mtimeMs = Return time
        /\ path = path_join [dir; name]
        /\ endsWith name ".jsonl" = true /\ (cutoffTime <= time)%Z
  | Directory sub entries =>
      exists below name mtimeMs,
        entries = Return below
        /\ file_in (path_join [dir; sub]) below path name mtimeMs
        /\ endsWith name ".jsonl" = true /\ (cutoffTime <= mtimeMs)%Z
  end.

(** What the scan of one entry comes to. *)
Definition scanned (cutoffTime : Z) (dir : string) (entry : dirent) : Prop :=
  match findConversations_entry cutoffTime dir entry with
  | Return found =>
      readable_entry entry = true
      /\ forall path, In path found <-> entry_scope cutoffTime dir entry path
  | Throw _ => readable_entry entry = false
  end.

(** The scans of one tree for two cutoffs: both throw the same error,
    or both return and the later cutoff gives a subsequence. *)
Definition narrows {A} (wide narrow : completion (list A)) : Prop :=
  match wide, narrow with
  | Return wide, Return narrow => narrow `sublist_of` wide
  | Throw e, Throw e' => e = e'
  | _, _ => False
  end.

(** Induction on a directory entry with the tree below it. *)
Section DirentInduction.
Variable P : dirent -> Prop.
Hypothesis P_file : forall name mtimeMs, P (File name mtimeMs).
Hypothesis P_unreadable : forall name e, P (Directory name (Throw e)).
Hypothesis P_directory :
  forall name entries, Forall P entries -> P (Directory name (Return entries)).

Fixpoint dirent_nested_ind (entry : dirent) : P entry :=
  match entry with
  | File name mtimeMs => P_file name mtimeMs
  | Directory name (Throw e) => P_unreadable name e
  | Directory name (Return entries) =>
      P_directory name entries
        ((fix all (l : list dirent) : Forall P l :=
            match l with
            | [] => @List.Forall_nil dirent P
            | x :: rest =>
                @List.Forall_cons dirent P x rest (dirent_nested_ind x) (all rest)
            end) entries)
  end.
End DirentInduction.

(** What [checkStatus] finds of the credentials: whether both keys of
    the configuration are truthy, or [None] when the configuration is
    [null], on which the read throws. *)
Definition credentials (config : value) : option bool :=
  match get config "publicKey", get config "secretKey" with
  | Some publicKey, Some secretKey => Some (truthy publicKey && truthy secretKey)
  | _, _ => None
  end.

(** The host of the configuration as a template literal shows it. *)
Definition host_text (config : value) : completion string :=
  match get config "host" with
  | Some host => to_string host
  | None => Throw (TypeError "Cannot read properties of null (reading 'host')")
  end.

(** Lines 158 to 167 as a function of the path: the project path and
    the conversation id [processConversationFile] derives from it, or
    [None] for a path outside the layout. *)
Definition identity_of (filepath : string) : option (string * string) :=
  let pathParts := split "/" filepath in
  let projectsIdx := indexOf pathParts "projects" in
  if (projectsIdx =? -1)%Z || (projectsIdx >=? Z.of_nat (length pathParts) - 2)%Z
  then None
  else match at_index pathParts (projectsIdx + 1) with
       | None => None
       | Some encodedProject =>
           Some (replace_all "-" "/" encodedProject, basename filepath ".jsonl")
       end.


(** The kind and the id [JSON.parse] returns for [line] do not depend
    on the references it allocates, and neither does its failure. *)
Definition parses_alike
    (JSON_parse : string -> positive -> option (value * positive)) (line : string)
  : Prop :=
  forall n n',
    match JSON_parse line n, JSON_parse line n' with
    | Some (entry, _), Some (entry', _) =>
        get entry "type" = get entry' "type" /\ get entry "uuid" = get entry' "uuid"
    | None, None => True
    | _, _ => False
    end.

(** Whatever entry of an eligible kind [line] parses to, its id, when it
    has one, is among [ids]. *)
Definition settled
    (JSON_parse : string -> positive -> option (value * positive))
    (ids : list value) (line : string) : Prop :=
  forall n entry n' msgType uuid,
    JSON_parse line n = Some (entry, n') ->
    get entry "type" = Some msgType ->
    includes [VStr "user"; VStr "assistant"] msgType = true ->
    get entry "uuid" = Some uuid ->
    truthy uuid = true ->
    Set_has ids uuid = true.

Section Views.
Context {L : Type}.

(** The fields of the instance a line leaves alone. *)
Definition settings (w : World L) : Options * gmap string string * value :=
  (options (this w), conversationSessions (this w), config (this w)).

(** Every cached id is the digest of what its path gives. *)
Definition cache_sound (w : World L) : Prop :=
  forall filepath sessionId,
    conversationSessions (this w) !! filepath = Some sessionId ->
    exists projectPath conversationId,
      identity_of filepath = Some (projectPath, conversationId)
      /\ sessionId = MD5.hexdigest (projectPath ++ ":" ++ conversationId).

(** Whether a client is there. *)
Definition has_client (w : World L) : bool :=
  match langfuse (this w) with Some _ => true | None => false end.

End Views.

(** ** Inputs of the repository's tests and of the scenarios *)

Module Fixture.
(** [{ type: 'user', uuid: 'test-uuid-123', message: { text: 'Hello' } }] *)
Definition hello : value :=
  VObj 1 [("type", VStr "user"); ("uuid", VStr "test-uuid-123");
          ("message", VObj 2 [("text", VStr "Hello")]);
          ("timestamp", VStr "2025-01-01T00:00:00.000Z")].

(** [{ type: 'user', message: 'Hello' }]: no [uuid]. *)
Definition without_uuid : value :=
  VObj 3 [("type", VStr "user"); ("message", VStr "Hello");
          ("timestamp", VStr "2025-01-01T00:00:00.000Z")].

(** The two entries of the test on deduplication across files. *)
Definition first_occurrence : value :=
  VObj 4 [("type", VStr "user"); ("uuid", VStr "shared-msg-uuid");
          ("message", VStr "First occurrence");
          ("timestamp", VStr "2025-01-01T00:00:00.000Z")].

Definition second_occurrence : value :=
  VObj 5 [("type", VStr "user"); ("uuid", VStr "shared-msg-uuid");
          ("message", VStr "Second occurrence");
          ("timestamp", VStr "2025-01-01T00:00:01.000Z")].

(** The entry of the tests on quiet mode. *)
Definition quiet_test : value :=
  VObj 6 [("type", VStr "user"); ("uuid", VStr "quiet-test-uuid");
          ("message", VStr "Test message");
          ("timestamp", VStr "2025-01-01T00:00:00.000Z")].

(** The entries of the test on message counts. *)
Definition user_msg : value :=
  VObj 7 [("type", VStr "user"); ("uuid", VStr "user-msg");
          ("message", VStr "User message");
          ("timestamp", VStr "2025-01-01T00:00:00.000Z")].

Definition assistant_msg : value :=
  VObj 8 [("type", VStr "assistant"); ("uuid", VStr "assistant-msg");
          ("message", VStr "Assistant message");
          ("timestamp", VStr "2025-01-01T00:00:00.000Z")].

(** The entry of the test on [tool_use] blocks. *)
Definition tool_use : value :=
  VObj 9 [("type", VStr "assistant"); ("uuid", VStr "test-tool-use");
          ("message",
           VObj 10 [("content",
                     VArr 11 [VObj 12 [("type", VStr "tool_use");
                                       ("name", VStr "Read");
                                       ("input",
                                        VObj 13 [("file_path", VStr "/test.js")])]])]);
          ("timestamp", VStr "2025-01-01T00:00:00.000Z")].

(** The entry of the test on [tool_result] blocks. *)
Definition tool_result : value :=
  VObj 14 [("type", VStr "user"); ("uuid", VStr "test-tool-result");
           ("message",
            VObj 15 [("content",
                      VArr 16 [VObj 17 [("type", VStr "tool_result");
                                        ("tool_use_id", VStr "tool-123");
                                        ("content", VStr "File contents here")]])]);
           ("timestamp", VStr "2025-01-01T00:00:00.000Z")].

(** A line whose text field holds a number:
    [{"type":"user","uuid":"u1","message":{"text":42}}] *)
Definition numeric_text : value :=
  VObj 18 [("type", VStr "user"); ("uuid", VStr "u1");
           ("message", VObj 19 [("text", VNum 42)])].

(** The line of the end-to-end scenario:
    [{"type":"user","uuid":"m1","message":{"text":"hi"},"timestamp":T}] *)
Definition quoted (s : string) : string :=
  String "034"%char EmptyString ++ s ++ String "034"%char EmptyString.

Definition T : string := "2025-01-01T00:00:00.000Z".

Definition m1_line : string :=
  "{" ++ quoted "type" ++ ":" ++ quoted "user" ++ ","
      ++ quoted "uuid" ++ ":" ++ quoted "m1" ++ ","
      ++ quoted "message" ++ ":{" ++ quoted "text" ++ ":" ++ quoted "hi" ++ "},"
      ++ quoted "timestamp" ++ ":" ++ quoted T ++ "}".

(** What [JSON.parse] makes of it, with references from [n] on. *)
Definition m1_entry (n : positive) : value :=
  VObj n [("type", VStr "user"); ("uuid", VStr "m1");
          ("message", VObj (n + 1) [("text", VStr "hi")]);
          ("timestamp", VStr T)].

(** The same line with a timestamp that has no primitive value:
    [{"type":"user","uuid":"m1","message":{"text":"hi"},"timestamp":{"toString":0}}] *)
Definition undated_line : string :=
  "{" ++ quoted "type" ++ ":" ++ quoted "user" ++ ","
      ++ quoted "uuid" ++ ":" ++ quoted "m1" ++ ","
      ++ quoted "message" ++ ":{" ++ quoted "text" ++ ":" ++ quoted "hi" ++ "},"
      ++ quoted "timestamp" ++ ":{" ++ quoted "toString" ++ ":0}}".

Definition undated_entry (n : positive) : value :=
  VObj n [("type", VStr "user"); ("uuid", VStr "m1");
          ("message", VObj (n + 1) [("text", VStr "hi")]);
          ("timestamp", VObj (n + 2) [("toString", VNum 0)])].

(** A parser that knows these two lines and the text [null]. *)
Definition JSON_parse (text : string) (n : positive) : option (value * positive) :=
  if String.eqb text m1_line then Some (m1_entry n, (n + 2)%positive)
  else if String.eqb text undated_line then Some (undated_entry n, (n + 3)%positive)
  else if String.eqb text "null" then Some (VNull, n)
  else None.

Definition root : string := "/home/u/.claude".

Definition conv1 : string := "/home/u/.claude/projects/a-b-c/conv1.jsonl".

(** A home directory with this one conversation, written an hour ago. *)
Definition env : Env :=
  {| Date_now := 1735693200000;
     homedir := "/home/u";
     projects :=
       Some (Return [Directory "a-b-c" (Return [File "conv1.jsonl" (Return 1735689600000)])]);
     readFileSync := fun filepath =>
       if String.eqb filepath conv1
       then Return (m1_line ++ String newline EmptyString)
       else Throw (Error "ENOENT: no such file or directory");
     configFile_exists := false;
     LANGFUSE_HOST := None;
     LANGFUSE_PUBLIC_KEY := None;
     LANGFUSE_SECRET_KEY := None |}.





(** [~/.claude-langfuse/config.json] exists and holds [null]. *)
Definition null_config_env : Env :=
  {| Date_now := 1735693200000;
     homedir := "/home/u";
     projects := Some (Return []);
     readFileSync := fun filepath =>
       if String.eqb filepath "/home/u/.claude-langfuse/config.json"
       then Return "null"
       else Throw (Error "ENOENT: no such file or directory");
     configFile_exists := true;
     LANGFUSE_HOST := None;
     LANGFUSE_PUBLIC_KEY := None;
     LANGFUSE_SECRET_KEY := None |}.

(** [new Monitor({ dryRun: true, historyHours: 0 })], as in the tests. *)
Definition dry_run : Arg.t :=
  {| Arg.historyHours := Some 0%Z; Arg.daemon := None;
     Arg.dryRun := Some true; Arg.quiet := None |}.

(** [new Monitor({ quiet, dryRun: true })] *)
Definition with_quiet (quiet : option bool) : Arg.t :=
  {| Arg.historyHours := None; Arg.daemon := None;
     Arg.dryRun := Some true; Arg.quiet := quiet |}.

(** [new Monitor({ historyHours })] *)
Definition with_history (hours : Z) : Arg.t :=
  {| Arg.historyHours := Some hours; Arg.daemon := None;
     Arg.dryRun := None; Arg.quiet := None |}.
End Fixture.

(* ===================================================================== *)
(** * Facts *)
(* ===================================================================== *)

(** The goal is about the state [w] a constructor call returns: run the
    call and name its state. *)
Ltac once_constructed w :=
  match goal with
  | |- exists x, ?c = Return x /\ _ =>
      let r := eval hnf in c in
      match r with
      | Return ?v => exists v; split; [reflexivity|]; set (w := v)
      end
  end.

Arguments MD5.hexdigest : simpl never.
Arguments includes : simpl never.
Arguments Set_has : simpl never.
Arguments Set_add : simpl never.
Arguments extractText : simpl never.
Arguments echo : simpl never.

(** ** The digest on test vectors of RFC 1321 *)

Example md5_empty : MD5.hexdigest "" = "d41d8cd98f00b204e9800998ecf8427e".
Proof. vm_compute. reflexivity. Qed.

Example md5_abc : MD5.hexdigest "abc" = "900150983cd24fb0d6963f7d28e17f72".
Proof. vm_compute. reflexivity. Qed.

Example md5_message_digest :
  MD5.hexdigest "message digest" = "f96b697d7cb7938d525a2f31aaf161d0".
Proof. vm_compute. reflexivity. Qed.

Example md5_two_blocks :
  MD5.hexdigest "aaaaaaaaaaaaaaaaaaaaaaaaaaaaaaaaaaaaaaaaaaaaaaaaaaaaaaaa"
  = "3b0c8ac703f828b04c6c197006d17218".
Proof. vm_compute. reflexivity. Qed.

(** ** The functions of [path], the conversions and [trim] on examples *)

(** The examples of the documentation of [path], and the home
    directories that end with a separator. *)
Example path_join_normalizes :
  path_join ["/foo"; "bar"; "baz/asdf"; "quux"; ".."] = "/foo/bar/baz/asdf"
  /\ normalize "/foo/bar//baz/asdf/quux/.." = "/foo/bar/baz/asdf"
  /\ path_join ["/"; ".claude"; "projects"] = "/.claude/projects"
  /\ path_join ["/home/u/"; ".claude"; "projects"] = "/home/u/.claude/projects"
  /\ path_join [""; ".claude"; "projects"] = ".claude/projects"
  /\ path_join ["a"; "../.."; "b/"] = "../b/"
  /\ path_join [""; ""] = ".".
Proof. repeat split; vm_compute; reflexivity. Qed.

Example basename_on_examples :
  basename "/foo/bar/baz/asdf/quux.html" "" = "quux.html"
  /\ basename "/foo/bar/baz/asdf/quux.html" ".html" = "quux"
  /\ basename "/a/b/conv1.jsonl//" ".jsonl" = "conv1"
  /\ basename "/a/b/conv1.json" ".jsonl" = "conv1.json"
  /\ basename ".jsonl" ".jsonl" = ""
  /\ basename "/a/.jsonl" ".jsonl" = ".jsonl"
  /\ basename "//////" ".jsonl" = "//////"
  /\ basename "/a/b/nl//" ".jsonl" = "nl//"
  /\ basename "é/l//" ".jsonl" = "l".
Proof. repeat split; vm_compute; reflexivity. Qed.

Example to_string_on_examples :
  to_string (VArr 1 [VNum 1; VNull; VStr "a"; VArr 2 [VBool true; VUndefined]; VObj 3 []])
  = Return "1,,a,true,,[object Object]"
  /\ to_string (VObj 1 [("valueOf", VNum 0)]) = Return "[object Object]"
  /\ to_string (VObj 1 [("toString", VNum 0)])
     = Throw (TypeError "Cannot convert object to primitive value")
  /\ to_string (VArr 1 [VNum 1; VObj 2 [("toString", VStr "x")]])
     = Throw (TypeError "Cannot convert object to primitive value")
  /\ new_Date (VStr "2025-01-01T00:00:00.000Z")
     = Return (NewDate (VStr "2025-01-01T00:00:00.000Z"))
  /\ new_Date (VObj 1 []) = Return (NewDate (VObj 1 []))
  /\ new_Date (VObj 1 [("toString", VNum 0); ("valueOf", VNum 0)])
     = Throw (TypeError "Cannot convert object to primitive value").
Proof. repeat split; vm_compute; reflexivity. Qed.

(** A line of white space only, also beyond ASCII (no-break space,
    line separator, byte order mark), is blank; a zero width space is
    a character like any other. *)
Example nonblank_on_examples :
  nonblank "" = false
  /\ nonblank (" " ++ String "009" (String "013" " ")) = false
  /\ nonblank (String "194" (String "160" " ")) = false
  /\ nonblank (String "226" (String "128" (String "168" ""))) = false
  /\ nonblank (String "239" (String "187" (String "191" " "))) = false
  /\ nonblank (String "226" (String "128" (String "139" ""))) = true
  /\ nonblank " {} " = true.
Proof. repeat split; vm_compute; reflexivity. Qed.

(** ** The digest is 32 hexadecimal characters *)

Lemma all_hex_app (s t : string) :
  all_hex (s ++ t) = all_hex s && all_hex t.
Proof.
  induction s as [|c s IH]; simpl; [reflexivity|].
  rewrite IH. apply andb_assoc.
Qed.

Lemma length_app_string (s t : string) :
  String.length (s ++ t) = (String.length s + String.length t)%nat.
Proof. induction s as [|c s IH]; simpl; [reflexivity|]. now rewrite IH. Qed.

Lemma hex_digit_is_hex (n : Z) : is_hex (MD5.hex_digit n) = true.
Proof.
  unfold MD5.hex_digit.
  destruct (Z.to_nat n) as [|k]; [reflexivity|].
  do 15 (destruct k as [|k]; [reflexivity|]).
  simpl. destruct k; reflexivity.
Qed.

Lemma byte_hex_shape (b : Z) :
  String.length (MD5.byte_hex b) = 2%nat /\ all_hex (MD5.byte_hex b) = true.
Proof.
  unfold MD5.byte_hex. split; [reflexivity|].
  simpl. now rewrite !hex_digit_is_hex.
Qed.

Lemma word_hex_shape (w : Z) :
  String.length (MD5.word_hex w) = 8%nat /\ all_hex (MD5.word_hex w) = true.
Proof.
  unfold MD5.word_hex.
  rewrite !length_app_string, !all_hex_app.
  pose proof (byte_hex_shape (Z.land w 255)) as [-> ->].
  pose proof (byte_hex_shape (Z.land (Z.shiftr w 8) 255)) as [-> ->].
  pose proof (byte_hex_shape (Z.land (Z.shiftr w 16) 255)) as [-> ->].
  pose proof (byte_hex_shape (Z.land (Z.shiftr w 24) 255)) as [-> ->].
  split; reflexivity.
Qed.

Lemma hexdigest_shape (s : string) :
  String.length (MD5.hexdigest s) = 32%nat /\ all_hex (MD5.hexdigest s) = true.
Proof.
  unfold MD5.hexdigest, MD5.state_hex.
  rewrite !length_app_string, !all_hex_app.
  set (st := MD5.digest_state _).
  pose proof (word_hex_shape (MD5.sa st)) as [-> ->].
  pose proof (word_hex_shape (MD5.sb st)) as [-> ->].
  pose proof (word_hex_shape (MD5.sc st)) as [-> ->].
  pose proof (word_hex_shape (MD5.sd st)) as [-> ->].
  split; reflexivity.
Qed.

(** ** The monad: what every step of a computation keeps *)

Section Frame.
Context {E W V : Type}.
Variable view : W -> V.
Variable rel : V -> V -> Prop.
Hypothesis rel_refl : forall v, rel v v.
Hypothesis rel_trans : forall a b c, rel a b -> rel b c -> rel a c.

Lemma keeps_ret {A} (a : A) : keeps (E:=E) view rel (ret a).
Proof. intros env w. apply rel_refl. Qed.

Lemma keeps_throw {A} (e : exn) : keeps (E:=E) view rel (@throw E W A e).
Proof. intros env w. apply rel_refl. Qed.

Lemma keeps_gets {A} (f : W -> A) : keeps (E:=E) view rel (gets (E:=E) f).
Proof. intros env w. apply rel_refl. Qed.

Lemma keeps_asks {A} (f : E -> A) : keeps (E:=E) view rel (asks (W:=W) f).
Proof. intros env w. apply rel_refl. Qed.

Lemma keeps_read (v : value) (k : string) : keeps (E:=E) view rel (@read E W v k).
Proof. unfold read. destruct (get v k); [apply keeps_ret | apply keeps_throw]. Qed.

Lemma keeps_lift {A} (c : completion A) : keeps (E:=E) view rel (@lift E W A c).
Proof. intros env w. apply rel_refl. Qed.

Lemma keeps_modify (f : W -> W) :
  (forall w, rel (view w) (view (f w))) -> keeps (E:=E) view rel (modify (E:=E) f).
Proof. intros Hf env w. apply Hf. Qed.

Lemma keeps_bind {A B} (c : M E W A) (k : A -> M E W B) :
  keeps (E:=E) view rel c -> (forall a, keeps (E:=E) view rel (k a)) -> keeps (E:=E) view rel (bind c k).
Proof.
  intros Hc Hk env w. unfold bind.
  specialize (Hc env w).
  destruct (c env w) as [[a|e] w1]; simpl in *; [|exact Hc].
  eapply rel_trans; [exact Hc | apply Hk].
Qed.

Lemma keeps_try_catch {A} (c : M E W A) (h : exn -> M E W A) :
  keeps (E:=E) view rel c -> (forall e, keeps (E:=E) view rel (h e)) -> keeps (E:=E) view rel (try_catch c h).
Proof.
  intros Hc Hh env w. unfold try_catch.
  specialize (Hc env w).
  destruct (c env w) as [[a|e] w1]; simpl in *; [exact Hc|].
  eapply rel_trans; [exact Hc | apply Hh].
Qed.

Lemma keeps_for_of {A} (l : list A) (body : A -> M E W unit) :
  (forall x, keeps (E:=E) view rel (body x)) -> keeps (E:=E) view rel (for_of l body).
Proof.
  intros Hb. induction l as [|x l IH]; simpl.
  - apply keeps_ret.
  - apply keeps_bind; [apply Hb | intros _; exact IH].
Qed.
End Frame.

(** A computation guarded by [try_catch] with a handler that returns
    always returns. *)
Lemma for_of_returns {E W A} (l : list A) (body : A -> M E W unit) :
  (forall x env w, fst (body x env w) = Return tt) ->
  forall env w, fst (for_of l body env w) = Return tt.
Proof.
  intros Hb. induction l as [|x l IH]; intros env w; simpl; [reflexivity|].
  unfold bind. specialize (Hb x env w).
  destruct (body x env w) as [[[]|e] w1]; simpl in Hb; [apply IH | discriminate].
Qed.

(** ** [same_value_zero] is an equivalence; the set of ids *)

Lemma same_value_zero_refl (v : value) : same_value_zero v v = true.
Proof.
  destruct v; simpl; try reflexivity.
  - apply eqb_reflx.
  - apply Z.eqb_refl.
  - apply String.eqb_refl.
  - apply Pos.eqb_refl.
  - apply Pos.eqb_refl.
Qed.

Lemma same_value_zero_sym (a b : value) :
  same_value_zero a b = same_value_zero b a.
Proof.
  destruct a, b; simpl; try reflexivity.
  - destruct b0, b; reflexivity.
  - apply Z.eqb_sym.
  - apply String.eqb_sym.
  - apply Pos.eqb_sym.
  - apply Pos.eqb_sym.
Qed.

Lemma same_value_zero_trans (a b c : value) :
  same_value_zero a b = true -> same_value_zero b c = true ->
  same_value_zero a c = true.
Proof.
  destruct a, b; simpl; try discriminate; destruct c; simpl; try discriminate;
    try reflexivity.
  - destruct b0, b, b1; simpl; congruence.
  - intros H1 H2. apply Z.eqb_eq in H1, H2. apply Z.eqb_eq. congruence.
  - intros H1 H2. apply String.eqb_eq in H1, H2. apply String.eqb_eq. congruence.
  - intros H1 H2. apply Pos.eqb_eq in H1, H2. apply Pos.eqb_eq. congruence.
  - intros H1 H2. apply Pos.eqb_eq in H1, H2. apply Pos.eqb_eq. congruence.
Qed.

Lemma Set_has_same (s : list value) (u u' : value) :
  same_value_zero u u' = true -> Set_has s u = true -> Set_has s u' = true.
Proof.
  unfold Set_has, includes. intros Hs Hu.
  apply existsb_exists in Hu as (x & Hx & Hux).
  apply existsb_exists. exists x. split; [exact Hx|].
  rewrite same_value_zero_sym in Hs.
  eapply same_value_zero_trans; eassumption.
Qed.

Lemma Set_has_app (s t : list value) (u : value) :
  Set_has (s ++ t) u = Set_has s u || Set_has t u.
Proof. unfold Set_has, includes. apply existsb_app. Qed.

Lemma Set_has_add (s : list value) (u : value) : Set_has (Set_add s u) u = true.
Proof.
  unfold Set_add. destruct (Set_has s u) eqn:H; [exact H|].
  rewrite Set_has_app. unfold Set_has at 2, includes. simpl.
  rewrite same_value_zero_refl. now rewrite orb_true_r.
Qed.

Lemma ids_kept_refl (s : list value) : ids_kept s s.
Proof. intros u H. exact H. Qed.

Lemma ids_kept_trans (a b c : list value) :
  ids_kept a b -> ids_kept b c -> ids_kept a c.
Proof. intros H1 H2 u H. apply H2, H1, H. Qed.

Lemma ids_kept_add (s : list value) (u : value) : ids_kept s (Set_add s u).
Proof.
  intros v H. unfold Set_add. destruct (Set_has s u); [exact H|].
  rewrite Set_has_app, H. reflexivity.
Qed.

Lemma Set_size_add_fresh (s : list value) (u : value) :
  Set_has s u = false -> Set_size (Set_add s u) = (Set_size s + 1)%Z.
Proof.
  intros H. unfold Set_add, Set_size. rewrite H, length_app. simpl. lia.
Qed.

(** ** [processMessage] *)

Section ProcessMessage.
Context {L : Type} `{!Langfuse L}.

Implicit Types (w : World L) (entry msgType uuid sessionId : value)
               (projectPath conversationId : string) (env : Env).

(** Steps that keep a view of the state: the combinators by the
    lemmas of [Frame], assignments by computation. *)
Ltac frame :=
  repeat first
    [ apply keeps_ret; assumption | apply keeps_throw; assumption
    | apply keeps_gets; assumption | apply keeps_asks; assumption
    | apply keeps_read; assumption
    | apply keeps_lift; assumption
    | apply keeps_bind; [assumption | | intros ?]
    | apply keeps_try_catch; [assumption | | intros ?]
    | match goal with
      | |- keeps _ _ (if ?b then _ else _) => destruct b
      | |- keeps _ _ (match ?x with _ => _ end) => destruct x
      end ];
  auto.

Lemma call_langfuse_keeps {V} (view : World L -> V) (rel : V -> V -> Prop)
    (method : string) (f : L -> completion unit * L) :
  (forall v, rel v v) ->
  (forall l w, view (set_langfuse l w) = view w) ->
  keeps view rel (call_langfuse method f).
Proof.
  intros Hrefl Hview env w. unfold call_langfuse.
  destruct (langfuse (this w)) as [l|]; [|apply Hrefl].
  destruct (f l) as [r l']. simpl. rewrite Hview. apply Hrefl.
Qed.

Lemma console_keeps {V} (view : World L -> V) (rel : V -> V -> Prop) :
  (forall v, rel v v) ->
  (forall c w, view (set_console c w) = view w) ->
  (forall s, keeps view rel (console_log s)) /\
  (forall s, keeps view rel (console_error s)).
Proof.
  intros Hrefl Hview.
  split; intros s env w; simpl; rewrite Hview; apply Hrefl.
Qed.

(** Extraction, echo and forwarding leave every field of the instance
    but the client as it was. *)
Lemma processMessage_forward_keeps {V} (view : World L -> V)
    entry msgType uuid sessionId projectPath conversationId :
  (forall l w, view (set_langfuse l w) = view w) ->
  (forall c w, view (set_console c w) = view w) ->
  keeps view eq
    (processMessage_forward entry msgType uuid sessionId projectPath conversationId).
Proof.
  intros Hl Hc.
  destruct (console_keeps view eq (@eq_refl V) Hc) as [Hlog Herr].
  pose proof (fun m f => call_langfuse_keeps view eq m f (@eq_refl V) Hl) as Hcall.
  pose proof (@eq_trans V) as Htr.
  unfold processMessage_forward.
  assert (Hrefl : forall v : V, v = v) by reflexivity.
  frame.
Qed.

Lemma processMessage_forward_ids
    entry msgType uuid sessionId projectPath conversationId env w :
  processedMessages
    (this (snd (processMessage_forward entry msgType uuid sessionId
                  projectPath conversationId env w)))
  = processedMessages (this w).
Proof.
  symmetry.
  apply (processMessage_forward_keeps (fun w => processedMessages (this w)));
    reflexivity.
Qed.

(** The three ways through the guards of [processMessage]. *)

Lemma processMessage_other_kind entry msgType sessionId projectPath conversationId env w :
  get entry "type" = Some msgType ->
  includes [VStr "user"; VStr "assistant"] msgType = false ->
  processMessage entry sessionId projectPath conversationId env w = (Return tt, w).
Proof.
  intros Ht Hk. unfold processMessage, bind, read. rewrite Ht. simpl.
  unfold bind, ret. simpl. now rewrite Hk.
Qed.

Lemma processMessage_dropped entry uuid sessionId projectPath conversationId env w :
  get entry "uuid" = Some uuid ->
  truthy uuid = false \/ Set_has (processedMessages (this w)) uuid = true ->
  processMessage entry sessionId projectPath conversationId env w = (Return tt, w).
Proof.
  intros Hu Hdrop. unfold processMessage, bind, read.
  destruct (get entry "type") as [msgType|] eqn:Ht.
  2:{ destruct entry; simpl in *; discriminate. }
  unfold ret at 1.
  destruct (includes _ msgType); simpl; [|reflexivity].
  rewrite Hu. unfold ret, gets. simpl.
  destruct Hdrop as [-> | ->]; [reflexivity | now rewrite orb_true_r].
Qed.

Lemma processMessage_fresh entry msgType uuid sessionId projectPath conversationId env w :
  get entry "type" = Some msgType ->
  includes [VStr "user"; VStr "assistant"] msgType = true ->
  get entry "uuid" = Some uuid ->
  truthy uuid = true ->
  Set_has (processedMessages (this w)) uuid = false ->
  processMessage entry sessionId projectPath conversationId env w
  = processMessage_forward entry msgType uuid sessionId projectPath conversationId env
      (set_processedMessages (Set_add (processedMessages (this w)) uuid) w).
Proof.
  intros Ht Hk Hu Htruthy Hfresh. unfold processMessage, bind at 1, read.
  rewrite Ht. unfold ret at 1. rewrite Hk. simpl.
  unfold bind at 1. rewrite Hu. unfold ret at 1.
  unfold bind at 1, gets. rewrite Htruthy, Hfresh. simpl.
  unfold bind at 1, modify. reflexivity.
Qed.

(** Ids are never removed. *)
Lemma processMessage_keeps_ids entry sessionId projectPath conversationId :
  keeps (fun w => processedMessages (this w)) ids_kept
    (processMessage entry sessionId projectPath conversationId).
Proof.
  pose proof ids_kept_refl as Hrefl. pose proof ids_kept_trans as Htr.
  unfold processMessage.
  apply keeps_bind; [assumption | apply keeps_read; assumption | intros msgType].
  destruct (negb _); [apply keeps_ret; assumption|].
  apply keeps_bind; [assumption | apply keeps_read; assumption | intros uuid].
  apply keeps_bind; [assumption | apply keeps_gets; assumption | intros seen].
  destruct (_ || _); [apply keeps_ret; assumption|].
  apply keeps_bind; [assumption | | intros _].
  - apply keeps_modify. intros w. simpl. apply ids_kept_add.
  - intros env w. rewrite processMessage_forward_ids. apply Hrefl.
Qed.

(** No other field of the instance is assigned. *)
Lemma processMessage_keeps_fields entry sessionId projectPath conversationId env w :
  let w' := snd (processMessage entry sessionId projectPath conversationId env w) in
  options (this w') = options (this w)
  /\ conversationSessions (this w') = conversationSessions (this w)
  /\ config (this w') = config (this w)
  /\ next_ref w' = next_ref w.
Proof.
  set (view := fun w : World L =>
         (options (this w), conversationSessions (this w), config (this w), next_ref w)).
  assert (H : keeps view eq
                (processMessage entry sessionId projectPath conversationId)).
  { assert (Hrefl : forall v : Options * gmap string string * value * positive, v = v)
      by reflexivity.
    pose proof (@eq_trans (Options * gmap string string * value * positive)) as Htr.
    unfold processMessage.
    apply keeps_bind; [assumption | apply keeps_read; assumption | intros msgType].
    destruct (negb _); [apply keeps_ret; assumption|].
    apply keeps_bind; [assumption | apply keeps_read; assumption | intros uuid].
    apply keeps_bind; [assumption | apply keeps_gets; assumption | intros seen].
    destruct (_ || _); [apply keeps_ret; assumption|].
    apply keeps_bind; [assumption | | intros _].
    - apply keeps_modify. reflexivity.
    - apply processMessage_forward_keeps; reflexivity. }
  specialize (H env w). unfold view in H. simpl.
  injection H as -> -> -> ->. auto.
Qed.
End ProcessMessage.

(** ** [processConversationFile] and the watcher *)

Section ConversationFile.
Context {L : Type} `{!Langfuse L}.
Variable JSON_parse : string -> positive -> option (value * positive).

Implicit Types (w : World L) (env : Env) (filepath : string).

Local Abbreviation ids := (fun w : World L => processedMessages (this w)).
Local Abbreviation sessions := (fun w : World L => conversationSessions (this w)).


Lemma parse_keeps {V} (view : World L -> V) (rel : V -> V -> Prop) line :
  (forall v, rel v v) ->
  (forall n w, view (set_next_ref n w) = view w) ->
  keeps view rel (parse JSON_parse line).
Proof.
  intros Hrefl Hview env w. unfold parse.
  destruct (JSON_parse line (next_ref w)) as [[v n]|]; simpl;
    [rewrite Hview|]; apply Hrefl.
Qed.

Lemma resolveSession_keeps_ids filepath projectPath conversationId :
  keeps ids eq (resolveSession filepath projectPath conversationId).
Proof.
  intros env w. unfold resolveSession, bind, gets, modify, ret.
  destruct (negb _); reflexivity.
Qed.

Lemma processConversationFile_keeps_ids filepath :
  keeps ids ids_kept (processConversationFile JSON_parse filepath).
Proof.
  pose proof ids_kept_refl as Hrefl. pose proof ids_kept_trans as Htr.
  unfold processConversationFile.
  apply keeps_try_catch; [assumption | | ].
  2:{ intros e env w. apply Hrefl. }
  destruct (_ || _); [apply keeps_ret; assumption|].
  destruct (at_index _ _) as [encodedProject|]; [|apply keeps_throw; assumption].
  apply keeps_bind; [assumption | | intros sessionId].
  { intros env w. rewrite <- (resolveSession_keeps_ids _ _ _ env w). apply Hrefl. }
  apply keeps_bind; [assumption | | intros content].
  { intros env w. apply Hrefl. }
  apply keeps_for_of; [assumption | assumption | intros line].
  unfold processLine.
  apply keeps_try_catch; [assumption | | intros e; apply keeps_ret; assumption].
  apply keeps_bind; [assumption | | intros entry].
  - apply parse_keeps; [assumption | reflexivity].
  - apply processMessage_keeps_ids.
Qed.

(** The cache of session ids only grows: a cached id is never
    replaced or removed. *)
Lemma resolveSession_keeps_sessions filepath projectPath conversationId :
  keeps sessions (⊆) (resolveSession filepath projectPath conversationId).
Proof.
  intros env w. unfold resolveSession, bind, gets, modify, ret, Map_has. simpl.
  destruct (conversationSessions (this w) !! filepath) eqn:Hk; simpl.
  - reflexivity.
  - now apply insert_subseteq.
Qed.

Lemma processConversationFile_keeps_sessions filepath :
  keeps sessions (⊆) (processConversationFile JSON_parse filepath).
Proof.
  assert (Hrefl : forall m : gmap string string, m ⊆ m) by reflexivity.
  assert (Htr : forall a b c : gmap string string, a ⊆ b -> b ⊆ c -> a ⊆ c)
    by (intros a b c; apply transitivity).
  unfold processConversationFile.
  apply keeps_try_catch; [assumption | | ].
  2:{ intros e env w. apply Hrefl. }
  destruct (_ || _); [apply keeps_ret; assumption|].
  destruct (at_index _ _) as [encodedProject|]; [|apply keeps_throw; assumption].
  apply keeps_bind; [assumption | apply resolveSession_keeps_sessions | intros sessionId].
  apply keeps_bind; [assumption | | intros content].
  { intros env w. apply Hrefl. }
  apply keeps_for_of; [assumption | assumption | intros line].
  unfold processLine.
  apply keeps_try_catch; [assumption | | intros e; apply keeps_ret; assumption].
  apply keeps_bind; [assumption | | intros entry].
  - apply parse_keeps; [assumption | reflexivity].
  - intros env w.
    destruct (processMessage_keeps_fields entry sessionId
                (replace_all "-" "/" encodedProject)
                (basename filepath ".jsonl") env w) as (_ & -> & _).
    apply Hrefl.
Qed.

Lemma watch_keeps_ids events w :
  ids_kept (processedMessages (this w))
           (processedMessages (this (watch JSON_parse events w))).
Proof.
  revert w. induction events as [|[env filepath] events IH]; intros w; simpl.
  - apply ids_kept_refl.
  - eapply ids_kept_trans; [|apply IH].
    apply (processConversationFile_keeps_ids filepath env w).
Qed.

Lemma watch_keeps_sessions events w :
  conversationSessions (this w)
    ⊆ conversationSessions (this (watch JSON_parse events w)).
Proof.
  revert w. induction events as [|[env filepath] events IH]; intros w; simpl.
  - reflexivity.
  - etransitivity; [|apply IH].
    apply (processConversationFile_keeps_sessions filepath env w).
Qed.

(** Resolution of a cached path returns the cached id. *)
Lemma resolveSession_cached filepath projectPath conversationId sid env w :
  conversationSessions (this w) !! filepath = Some sid ->
  resolveSession filepath projectPath conversationId env w = (Return (VStr sid), w).
Proof.
  intros Hk. unfold resolveSession, bind, gets, modify, ret, Map_has, Map_get.
  simpl. rewrite Hk. simpl. now rewrite Hk.
Qed.

Lemma resolveSession_first filepath projectPath conversationId env w :
  conversationSessions (this w) !! filepath = None ->
  resolveSession filepath projectPath conversationId env w
  = (Return (VStr (MD5.hexdigest (projectPath ++ ":" ++ conversationId))),
     set_conversationSessions
       (<[filepath := MD5.hexdigest (projectPath ++ ":" ++ conversationId)]>
          (conversationSessions (this w))) w).
Proof.
  intros Hk. unfold resolveSession, bind, gets, modify, ret, Map_has, Map_get.
  simpl. rewrite Hk. simpl. now rewrite lookup_insert_eq.
Qed.
End ConversationFile.

(** ** Paths *)

Lemma split_nonempty (sep : ascii) (s : string) : split sep s <> [].
Proof.
  destruct s as [|c s]; simpl; [discriminate|].
  destruct (Ascii.eqb c sep); [discriminate|].
  destruct (split sep s); discriminate.
Qed.

(** Splitting distributes over a separator in the middle. *)
Lemma split_app_sep (sep : ascii) (s t : string) :
  split sep (s ++ String sep t) = (split sep s ++ split sep t)%list.
Proof.
  induction s as [|c s IH]; simpl.
  - now rewrite Ascii.eqb_refl.
  - destruct (Ascii.eqb c sep); [now rewrite IH|].
    rewrite IH. pose proof (split_nonempty sep s) as Hne.
    destruct (split sep s) as [|h tl]; [contradiction|reflexivity].
Qed.

Lemma indexOf_app_first (l1 l2 : list string) (x : string) :
  ~ In x l1 -> indexOf (l1 ++ x :: l2)%list x = Z.of_nat (length l1).
Proof.
  induction l1 as [|y l1 IH]; intros Hnot; simpl.
  - now rewrite String.eqb_refl.
  - destruct (String.eqb_spec y x) as [->|Hne].
    + exfalso. apply Hnot. now left.
    + rewrite IH by (intros Hin; apply Hnot; now right).
      destruct (Z.eqb_spec (Z.of_nat (length l1)) (-1)); lia.
Qed.

Lemma at_index_app (l1 l2 : list string) (i : nat) :
  at_index (l1 ++ l2)%list (Z.of_nat (length l1) + Z.of_nat i) = nth_error l2 i.
Proof.
  unfold at_index.
  destruct (Z.ltb_spec (Z.of_nat (length l1) + Z.of_nat i) 0); [lia|].
  replace (Z.to_nat (Z.of_nat (length l1) + Z.of_nat i)) with (length l1 + i)%nat by lia.
  rewrite nth_error_app2 by lia. f_equal. lia.
Qed.

Lemma strip_trailing_app (c : ascii) (s t : string) :
  strip_trailing c t <> EmptyString ->
  strip_trailing c (s ++ t) = s ++ strip_trailing c t.
Proof.
  intros Ht. induction s as [|x s IH]; [reflexivity|].
  change (strip_trailing c (String x (s ++ t)) = String x (s ++ strip_trailing c t)).
  simpl strip_trailing. rewrite IH.
  destruct (s ++ strip_trailing c t) eqn:E; [|reflexivity].
  destruct s; simpl in E; [contradiction|discriminate].
Qed.

Lemma last_app_cons {A} (l1 l2 : list A) (x d : A) :
  List.last (l1 ++ x :: l2)%list d = List.last (x :: l2) d.
Proof.
  induction l1 as [|y l1 IH]; [reflexivity|].
  simpl app. rewrite <- IH. simpl.
  destruct (l1 ++ x :: l2)%list eqn:E; [|reflexivity].
  destruct l1; discriminate.
Qed.

Lemma append_assoc (a b c : string) : (a ++ b) ++ c = a ++ (b ++ c).
Proof.
  induction a as [|x a IH]; [reflexivity|].
  change (String x ((a ++ b) ++ c) = String x (a ++ (b ++ c))). now rewrite IH.
Qed.

Lemma contains_app (c : ascii) (s t : string) :
  contains c (s ++ t) = contains c s || contains c t.
Proof.
  induction s as [|x s IH]; [reflexivity|].
  change (Ascii.eqb x c || contains c (s ++ t)
          = Ascii.eqb x c || contains c s || contains c t).
  now rewrite IH, orb_assoc.
Qed.

(** A string without the separator is its only segment. *)
Lemma split_without_separator (sep : ascii) (s : string) :
  contains sep s = false -> split sep s = [s].
Proof.
  induction s as [|x s IH]; simpl; [reflexivity|].
  intros H. apply orb_false_iff in H as [Hx Hs].
  rewrite Hx, (IH Hs). reflexivity.
Qed.

Lemma endsWith_app (s ext : string) : endsWith (s ++ ext) ext = true.
Proof.
  induction s as [|x s IH].
  - change (endsWith ext ext = true).
    destruct ext; unfold endsWith; fold endsWith; rewrite String.eqb_refl; reflexivity.
  - change (String.eqb (String x (s ++ ext)) ext || endsWith (s ++ ext) ext = true).
    rewrite IH. apply orb_true_r.
Qed.

Lemma substring_prefix (s t : string) :
  String.substring 0 (String.length s) (s ++ t) = s.
Proof.
  induction s as [|x s IH]; [destruct t; reflexivity|].
  change (String x (String.substring 0 (String.length s) (s ++ t)) = String x s).
  now rewrite IH.
Qed.

Lemma utf16_length_app (s t : string) :
  utf16_length (s ++ t) = (utf16_length s + utf16_length t)%nat.
Proof.
  induction s as [|x s IH]; [reflexivity|].
  change (units x + utf16_length (s ++ t)
          = units x + utf16_length s + utf16_length t)%nat.
  rewrite IH. lia.
Qed.

(** The conversation id of a file [name.jsonl]. *)
Lemma basename_of_conversation (dir name : string) :
  contains "/" name = false ->
  name <> EmptyString ->
  basename (dir ++ "/" ++ name ++ ".jsonl") ".jsonl" = name.
Proof.
  intros Hname Hne. unfold basename.
  assert (Hfile : contains "/" (name ++ ".jsonl") = false)
    by (rewrite contains_app, Hname; reflexivity).
  assert (Hneq : String.eqb (name ++ ".jsonl") ".jsonl" = false).
  { apply String.eqb_neq. intros Heq.
    apply (f_equal String.length) in Heq. rewrite length_app_string in Heq.
    destruct name; [contradiction | simpl in Heq; lia]. }
  replace (dir ++ "/" ++ name ++ ".jsonl")
    with (((dir ++ "/") ++ name) ++ ".jsonl") by now rewrite !append_assoc.
  set (p := ((dir ++ "/") ++ name) ++ ".jsonl").
  assert (Hunits : (utf16_length p <? utf16_length ".jsonl")%nat = false).
  { unfold p. rewrite utf16_length_app. apply Nat.ltb_ge. lia. }
  assert (Hp : String.eqb ".jsonl" p = false).
  { apply String.eqb_neq. intros Heq.
    apply (f_equal String.length) in Heq. unfold p in Heq.
    rewrite !length_app_string in Heq. simpl in Heq. lia. }
  rewrite Hunits, Hp. simpl orb. cbv iota.
  unfold p. rewrite strip_trailing_app by (vm_compute; discriminate).
  replace (strip_trailing "/" ".jsonl") with ".jsonl" by reflexivity.
  fold p.
  assert (Hempty : String.eqb p "" = false).
  { apply String.eqb_neq. intros Heq.
    apply (f_equal String.length) in Heq. unfold p in Heq.
    rewrite !length_app_string in Heq. simpl in Heq. lia. }
  rewrite Hempty. unfold p.
  rewrite !append_assoc.
  change (dir ++ "/" ++ name ++ ".jsonl") with (dir ++ String "/" (name ++ ".jsonl")).
  rewrite split_app_sep, (split_without_separator "/" _ Hfile).
  pose proof (split_nonempty "/" dir) as Hdir.
  rewrite last_app_cons. simpl List.last.
  rewrite endsWith_app, Hneq.
  rewrite length_app_string.
  replace (String.length name + String.length ".jsonl" - String.length ".jsonl")%nat
    with (String.length name) by lia.
  apply substring_prefix.
Qed.


(** ** What [processMessage_forward] does, case by case *)

Section Forward.
Context {L : Type} `{!Langfuse L}.

Implicit Types (w : World L) (entry msgType uuid sessionId message : value)
               (projectPath conversationId text : string) (env : Env) (l : L)
               (timestamp : Date).

(** The entry is read and its date made; the rest follows. *)
Lemma forward_dated
    entry msgType uuid sessionId projectPath conversationId message env w :
  get entry "message" = Some message ->
  processMessage_forward entry msgType uuid sessionId projectPath conversationId env w
  = match timestamp_of entry env with
    | Throw e => (Throw e, w)
    | Return timestamp =>
        match extractText message with
        | VStr text =>
            (console_log (echo msgType projectPath text) ;;;
             dry <- gets (fun w => dryRun (options (this w))) ;;
             if dry then ret tt else
             try_catch
               ((if strict_eq msgType (VStr "user") then
                   call_langfuse "trace"
                     (trace (traceData entry msgType uuid sessionId
                               projectPath conversationId text timestamp))
                 else if strict_eq msgType (VStr "assistant") then
                   call_langfuse "generation"
                     (generation (generationData entry msgType uuid
                                    projectPath conversationId text timestamp))
                 else ret tt) ;;;
                size <- gets (fun w => Set_size (processedMessages (this w))) ;;
                if (size mod 10 =? 0)%Z then call_langfuse "flushAsync" flushAsync
                else ret tt)
               (fun error => console_error ("Error creating trace: " ++ message_of error)))
              env w
        | _ => (Throw (TypeError "text.substring is not a function"), w)
        end
    end.
Proof.
  intros Hm. unfold processMessage_forward, bind at 1, read.
  rewrite Hm. unfold ret at 1, bind at 1, asks. unfold bind at 1, lift.
  unfold timestamp_of.
  destruct (new_Date _); [|reflexivity].
  destruct (extractText message); reflexivity.
Qed.


Lemma forward_not_a_string
    entry msgType uuid sessionId projectPath conversationId message timestamp env w :
  get entry "message" = Some message ->
  timestamp_of entry env = Return timestamp ->
  (forall text, extractText message <> VStr text) ->
  processMessage_forward entry msgType uuid sessionId projectPath conversationId env w
  = (Throw (TypeError "text.substring is not a function"), w).
Proof.
  intros Hm Hdate Htext. rewrite (forward_dated _ _ _ _ _ _ message) by exact Hm.
  rewrite Hdate.
  destruct (extractText message) as [| | | |t| |]; try reflexivity.
  now destruct (Htext t).
Qed.

Lemma forward_dry_run
    entry msgType uuid sessionId projectPath conversationId message text timestamp env w :
  get entry "message" = Some message ->
  extractText message = VStr text ->
  timestamp_of entry env = Return timestamp ->
  dryRun (options (this w)) = true ->
  processMessage_forward entry msgType uuid sessionId projectPath conversationId env w
  = (Return tt, echoed msgType projectPath text w).
Proof.
  intros Hm Htext Hdate Hdry. rewrite (forward_dated _ _ _ _ _ _ message) by exact Hm.
  rewrite Hdate, Htext.
  unfold bind, console_log, modify, gets. simpl. now rewrite Hdry.
Qed.

Lemma forward_user
    entry uuid sessionId projectPath conversationId message text timestamp env w l :
  get entry "message" = Some message ->
  extractText message = VStr text ->
  timestamp_of entry env = Return timestamp ->
  dryRun (options (this w)) = false ->
  langfuse (this w) = Some l ->
  let data := traceData entry (VStr "user") uuid sessionId projectPath conversationId
                text timestamp in
  let w1 := echoed (VStr "user") projectPath text w in
  processMessage_forward entry (VStr "user") uuid sessionId
                         projectPath conversationId env w
  = match trace data l with
    | (Return _, l1) => flushed l1 w1
    | (Throw e, l1) => (Return tt, reported e (set_langfuse (Some l1) w1))
    end.
Proof.
  intros Hm Htext Hdate Hdry Hl data w1.
  rewrite (forward_dated _ _ _ _ _ _ message) by exact Hm. rewrite Hdate, Htext.
  unfold bind at 1, console_log, modify. unfold bind at 1, gets. simpl.
  rewrite Hdry. unfold try_catch, bind at 1, call_langfuse. simpl. rewrite Hl.
  subst data.
  destruct (trace _ l) as [[[]|e] l1]; [|reflexivity].
  unfold flushed, bind, gets. simpl.
  destruct (_ =? 0)%Z; [|reflexivity].
  simpl. destruct (flushAsync l1) as [[[]|e] l2]; reflexivity.
Qed.

Lemma forward_assistant
    entry uuid sessionId projectPath conversationId message text timestamp env w l :
  get entry "message" = Some message ->
  extractText message = VStr text ->
  timestamp_of entry env = Return timestamp ->
  dryRun (options (this w)) = false ->
  langfuse (this w) = Some l ->
  let data := generationData entry (VStr "assistant") uuid projectPath conversationId
                text timestamp in
  let w1 := echoed (VStr "assistant") projectPath text w in
  processMessage_forward entry (VStr "assistant") uuid sessionId
                         projectPath conversationId env w
  = match generation data l with
    | (Return _, l1) => flushed l1 w1
    | (Throw e, l1) => (Return tt, reported e (set_langfuse (Some l1) w1))
    end.
Proof.
  intros Hm Htext Hdate Hdry Hl data w1.
  rewrite (forward_dated _ _ _ _ _ _ message) by exact Hm. rewrite Hdate, Htext.
  unfold bind at 1, console_log, modify. unfold bind at 1, gets. simpl.
  rewrite Hdry. unfold try_catch, bind at 1, call_langfuse. simpl. rewrite Hl.
  subst data.
  destruct (generation _ l) as [[[]|e] l1]; [|reflexivity].
  unfold flushed, bind, gets. simpl.
  destruct (_ =? 0)%Z; [|reflexivity].
  simpl. destruct (flushAsync l1) as [[[]|e] l2]; reflexivity.
Qed.


(** A read that succeeds on an entry makes every read succeed. *)
Lemma get_total entry k x k' :
  get entry k = Some x -> exists y, get entry k' = Some y.
Proof. destruct entry; simpl; intros H; try discriminate; eauto. Qed.
End Forward.

(** ** Recording of ids *)

Section Recording.
Context {L : Type} `{!Langfuse L}.
Variable JSON_parse : string -> positive -> option (value * positive).

Implicit Types (w : World L) (entry msgType uuid sessionId message : value)
               (projectPath conversationId text : string) (env : Env).

(** An eligible entry with an id leaves its id recorded, however the
    call ends. *)
Lemma processMessage_records
    entry msgType uuid sessionId projectPath conversationId env w :
  get entry "type" = Some msgType ->
  includes [VStr "user"; VStr "assistant"] msgType = true ->
  get entry "uuid" = Some uuid ->
  truthy uuid = true ->
  Set_has
    (processedMessages
       (this (snd (processMessage entry sessionId projectPath conversationId env w))))
    uuid = true.
Proof.
  intros Ht Hk Hu Htruthy.
  destruct (Set_has (processedMessages (this w)) uuid) eqn:Hseen.
  - rewrite (processMessage_dropped entry uuid) by auto. exact Hseen.
  - rewrite (processMessage_fresh entry msgType uuid) by assumption.
    rewrite processMessage_forward_ids. simpl. apply Set_has_add.
Qed.

(** A recorded id stays recorded through every later event, and an
    entry that carries it is dropped: nothing is printed, forwarded
    or assigned. *)
Lemma recorded_id_is_dropped
    entry uuid uuid' sessionId projectPath conversationId env events w :
  Set_has (processedMessages (this w)) uuid = true ->
  same_value_zero uuid uuid' = true ->
  get entry "uuid" = Some uuid' ->
  let w' := watch JSON_parse events w in
  processMessage entry sessionId projectPath conversationId env w' = (Return tt, w').
Proof.
  intros Hseen Hsame Hu w'.
  apply (processMessage_dropped entry uuid'); [exact Hu|]. right.
  apply (Set_has_same _ uuid); [exact Hsame|].
  apply (watch_keeps_ids JSON_parse events w). exact Hseen.
Qed.
End Recording.

(** ** The constructor *)

(** What a monitor is when the constructor returns it. *)
Lemma fresh_monitor {L : Type} `{!Langfuse L}
    (JSON_parse : string -> positive -> option (value * positive))
    (options_ : Arg.t) (env : Env) (w : World L) :
  fresh JSON_parse options_ env = Return w ->
  options (this w)
  = {| historyHours := number_or (Arg.historyHours options_) 24;
       daemon := bool_or_false (Arg.daemon options_);
       dryRun := bool_or_false (Arg.dryRun options_) |}
  /\ processedMessages (this w) = []
  /\ conversationSessions (this w) = ∅
  /\ console w = []
  /\ (if bool_or_false (Arg.dryRun options_)
      then langfuse (this w) = None
      else exists publicKey secretKey baseUrl,
             get (config (this w)) "publicKey" = Some publicKey
             /\ get (config (this w)) "secretKey" = Some secretKey
             /\ get (config (this w)) "host" = Some baseUrl
             /\ langfuse (this w)
                = Some (connect {| Client.publicKey := publicKey;
                                   Client.secretKey := secretKey;
                                   Client.baseUrl := baseUrl |})).
Proof.
  unfold fresh, Monitor_new, bind at 1.
  destruct (loadConfig JSON_parse env 1%positive) as [[config|e] n]; [|discriminate].
  simpl dryRun.
  destruct (bool_or_false (Arg.dryRun options_)); simpl negb; cbv iota.
  - unfold ret. intros [= <-]. simpl. auto.
  - unfold bind, read.
    destruct (get config "publicKey") as [publicKey|] eqn:Hp; [|discriminate].
    destruct (get config "secretKey") as [secretKey|] eqn:Hs; [|discriminate].
    destruct (get config "host") as [baseUrl|] eqn:Hh; [|discriminate].
    unfold ret. intros [= <-]. simpl. rewrite Hp, Hs, Hh.
    repeat split; eauto 10.
Qed.



(** ** The echo of an entry whose text is a string *)

Lemma forward_echoes_once {L : Type} `{!Langfuse L}
    (entry msgType uuid sessionId message : value)
    (projectPath conversationId text : string) (timestamp : Date)
    (env : Env) (w : World L) :
  get entry "message" = Some message ->
  extractText message = VStr text ->
  timestamp_of entry env = Return timestamp ->
  exists errors w',
    processMessage_forward entry msgType uuid sessionId projectPath conversationId env w
    = (Return tt, w')
    /\ console w' = (console w ++ Log (echo msgType projectPath text) :: errors)%list
    /\ (errors = [] \/ exists s, errors = [Err s]).
Proof.
  intros Hm Htext Hdate.
  rewrite (forward_dated _ _ _ _ _ _ message) by exact Hm. rewrite Hdate, Htext.
  unfold bind at 1, console_log, modify. unfold bind at 1, gets.
  set (w1 := set_console _ w).
  assert (Hw1 : console w1 = (console w ++ [Log (echo msgType projectPath text)])%list)
    by reflexivity.
  destruct (dryRun _); [exists [], w1; auto|].
  unfold try_catch, bind at 1.
  assert (Hcall : forall method f,
             exists r1 w2, call_langfuse method f env w1 = (r1, w2)
                           /\ console w2 = console w1
                           /\ processedMessages (this w2) = processedMessages (this w1)).
  { intros method f. unfold call_langfuse.
    destruct (langfuse (this w1)) as [l|]; [destruct (f l) as [r1 l1]|]; eauto. }
  match goal with
  | |- context [let (c, w') := ?step env w1 in _] =>
      assert (Hstep : exists r1 w2, step env w1 = (r1, w2)
                                    /\ console w2 = console w1
                                    /\ processedMessages (this w2)
                                       = processedMessages (this w1))
  end.
  { destruct (strict_eq msgType (VStr "user")); [apply Hcall|].
    destruct (strict_eq msgType (VStr "assistant")); [apply Hcall|].
    exists (Return tt), w1. auto. }
  destruct Hstep as (r1 & w2 & -> & Hc2 & _).
  destruct r1 as [[]|e].
  - unfold bind at 1, gets.
    destruct (_ =? 0)%Z.
    + unfold call_langfuse.
      destruct (langfuse (this w2)) as [l|].
      * destruct (flushAsync l) as [[[]|e] l2]; simpl.
        -- exists [], (set_langfuse (Some l2) w2). simpl. rewrite Hc2, Hw1. auto.
        -- eexists [Err _], _. split; [reflexivity|]. simpl.
           rewrite Hc2, Hw1, <- app_assoc. split; [reflexivity | eauto].
      * simpl. eexists [Err _], _. split; [reflexivity|]. simpl.
        rewrite Hc2, Hw1, <- app_assoc. split; [reflexivity | eauto].
    + exists [], w2. rewrite Hc2, Hw1. auto.
  - simpl. eexists [Err _], _. split; [reflexivity|]. simpl.
    rewrite Hc2, Hw1, <- app_assoc. split; [reflexivity | eauto].
Qed.

(** For an eligible entry with a fresh id whose extracted text is a
    string and whose timestamp makes a date, in every mode and with
    every client, [processMessage] returns, and it prints exactly one
    preview line, followed at most by the report of a forwarding
    error. *)
Lemma processMessage_echoes_once {L : Type} `{!Langfuse L}
    (entry msgType uuid sessionId message : value)
    (projectPath conversationId text : string) (timestamp : Date)
    (env : Env) (w : World L) :
  get entry "type" = Some msgType ->
  includes [VStr "user"; VStr "assistant"] msgType = true ->
  get entry "uuid" = Some uuid ->
  truthy uuid = true ->
  Set_has (processedMessages (this w)) uuid = false ->
  get entry "message" = Some message ->
  extractText message = VStr text ->
  timestamp_of entry env = Return timestamp ->
  exists errors w',
    processMessage entry sessionId projectPath conversationId env w = (Return tt, w')
    /\ console w' = (console w ++ Log (echo msgType projectPath text) :: errors)%list
    /\ (errors = [] \/ exists s, errors = [Err s]).
Proof.
  intros Ht Hk Hu Htruthy Hfresh Hm Htext Hdate.
  rewrite (processMessage_fresh entry msgType uuid) by assumption.
  destruct (forward_echoes_once entry msgType uuid sessionId message projectPath
              conversationId text timestamp env
              (set_processedMessages (Set_add (processedMessages (this w)) uuid) w)
              Hm Htext Hdate) as (errors & w' & Hrun & Hconsole & Herrors).
  exists errors, w'. split; [exact Hrun|]. split; [exact Hconsole | exact Herrors].
Qed.

(* ===================================================================== *)
(** * The properties of the specification *)
(* ===================================================================== *)

(** ** Deduplication *)

(** C6. Message handling is idempotent in the entry id. An entry whose
    [uuid] is missing or otherwise falsy is dropped: the call returns
    and the whole state (the set of processed ids, the console, the
    client with the records it was given, every other field) is what it
    was. So is an entry whose id is already in the set. For a fresh id
    of an eligible entry, the id is added first: the call is extraction,
    echo and forwarding ([processMessage_forward]) run in the state that
    already holds the id, where nothing else has changed yet, and the id
    is in the set however that ends. *)
Theorem C6_deduplicate {L : Type} `{!Langfuse L}
    (entry sessionId : value) (projectPath conversationId : string)
    (env : Env) (w : World L) :
  (forall uuid,
      get entry "uuid" = Some uuid -> truthy uuid = false ->
      processMessage entry sessionId projectPath conversationId env w = (Return tt, w))
  /\ (forall uuid,
      get entry "uuid" = Some uuid ->
      Set_has (processedMessages (this w)) uuid = true ->
      processMessage entry sessionId projectPath conversationId env w = (Return tt, w))
  /\ (forall msgType uuid,
      get entry "type" = Some msgType ->
      includes [VStr "user"; VStr "assistant"] msgType = true ->
      get entry "uuid" = Some uuid -> truthy uuid = true ->
      Set_has (processedMessages (this w)) uuid = false ->
      let marked := set_processedMessages (Set_add (processedMessages (this w)) uuid) w in
      processedMessages (this marked) = (processedMessages (this w) ++ [uuid])%list
      /\ console marked = console w
      /\ langfuse (this marked) = langfuse (this w)
      /\ processMessage entry sessionId projectPath conversationId env w
         = processMessage_forward entry msgType uuid sessionId
             projectPath conversationId env marked
      /\ processedMessages
           (this (snd (processMessage entry sessionId projectPath conversationId env w)))
         = processedMessages (this marked)).
Proof.
  split; [|split].
  - intros uuid Hu Hfalsy. apply (processMessage_dropped entry uuid); auto.
  - intros uuid Hu Hseen. apply (processMessage_dropped entry uuid); auto.
  - intros msgType uuid Ht Hk Hu Htruthy Hfresh marked.
    assert (Heq := processMessage_fresh entry msgType uuid sessionId projectPath
                     conversationId env w Ht Hk Hu Htruthy Hfresh).
    fold marked in Heq.
    repeat split; try reflexivity.
    + unfold marked, Set_add. simpl. now rewrite Hfresh.
    + exact Heq.
    + rewrite Heq. apply processMessage_forward_ids.
Qed.

Lemma C6_deduplicate_witness :
  exists w : World Mock.t,
    fresh Fixture.JSON_parse Arg.empty Fixture.env = Return w
    /\ let w1 := snd (processMessage Fixture.hello (VStr "session-123")
                        "/test/project" "conv-123" Fixture.env w) in
       processMessage Fixture.without_uuid (VStr "session-123")
         "/test/project" "conv-123" Fixture.env w = (Return tt, w)
       /\ processMessage Fixture.hello (VStr "session-123")
            "/test/project" "conv-123" Fixture.env w1 = (Return tt, w1)
       /\ processedMessages (this w1) = [VStr "test-uuid-123"].
Proof.
  once_constructed w. intros w1.
  split; [|split].
  - apply (proj1 (C6_deduplicate Fixture.without_uuid (VStr "session-123")
                    "/test/project" "conv-123" Fixture.env w) VUndefined);
      reflexivity.
  - apply (proj1 (proj2 (C6_deduplicate Fixture.hello (VStr "session-123")
                           "/test/project" "conv-123" Fixture.env w1))
             (VStr "test-uuid-123"));
      reflexivity.
  - destruct (proj2 (proj2 (C6_deduplicate Fixture.hello (VStr "session-123")
                              "/test/project" "conv-123" Fixture.env w))
                (VStr "user") (VStr "test-uuid-123")
                eq_refl eq_refl eq_refl eq_refl eq_refl) as (_ & _ & _ & _ & H).
    exact H.
Defined.

(** C10. Deduplication is global by entry id alone. Once an eligible
    entry with id [uuid] has been handled (whatever its file, session,
    project, conversation and payload, and however the call ended), and
    whatever files the watcher reports afterwards, an entry with the
    same id is dropped under any other session id, project path,
    conversation id, payload and kind: the call returns and the whole
    state, the client with its records included, is unchanged. *)
Theorem C10_global_deduplication {L : Type} `{!Langfuse L}
    (JSON_parse : string -> positive -> option (value * positive))
    (entry1 entry2 msgType uuid uuid' sessionId1 sessionId2 : value)
    (projectPath1 projectPath2 conversationId1 conversationId2 : string)
    (env1 env2 : Env) (events : list (Env * string)) (w : World L) :
  get entry1 "type" = Some msgType ->
  includes [VStr "user"; VStr "assistant"] msgType = true ->
  get entry1 "uuid" = Some uuid ->
  truthy uuid = true ->
  get entry2 "uuid" = Some uuid' ->
  same_value_zero uuid uuid' = true ->
  let w1 := snd (processMessage entry1 sessionId1 projectPath1 conversationId1 env1 w) in
  let w2 := watch JSON_parse events w1 in
  processMessage entry2 sessionId2 projectPath2 conversationId2 env2 w2 = (Return tt, w2).
Proof.
  intros Ht Hk Hu Htruthy Hu' Hsame w1 w2.
  apply (recorded_id_is_dropped JSON_parse entry2 uuid uuid'); try assumption.
  apply (processMessage_records entry1 msgType); assumption.
Qed.

Lemma C10_global_deduplication_witness :
  exists w : World Mock.t,
    fresh Fixture.JSON_parse Arg.empty Fixture.env = Return w
    /\ let w1 := snd (processMessage Fixture.first_occurrence (VStr "session-1")
                        "/project1" "conv1" Fixture.env w) in
       let w2 := watch Fixture.JSON_parse [(Fixture.env, Fixture.conv1)] w1 in
       processMessage Fixture.second_occurrence (VStr "session-2")
         "/project2" "conv2" Fixture.env w2 = (Return tt, w2).
Proof.
  once_constructed w. intros w1 w2.
  apply (C10_global_deduplication Fixture.JSON_parse
           Fixture.first_occurrence Fixture.second_occurrence
           (VStr "user") (VStr "shared-msg-uuid") (VStr "shared-msg-uuid"));
    reflexivity.
Defined.

(** ** Forwarding errors *)

(** C8. A forwarding error is caught and the id stays recorded. Take an
    entry that reaches the client: an eligible entry with a fresh id,
    with a text that is a string and a timestamp that makes the date
    [timestamp] of its record, handled by a monitor that forwards. Let
    the client throw [e] on the record of this entry (the trace of a
    user entry, the generation of an assistant entry). Then
    [processMessage] returns: a loop over entries goes on with the
    next one; the echo line and the error are printed; the id is in the
    set of processed ids; and whatever the watcher reports afterwards,
    an entry with this id is dropped without a call to the client, so
    that its forwarding is never tried again. *)
Theorem C8_forwarding_error_is_caught {L : Type} `{!Langfuse L}
    (JSON_parse : string -> positive -> option (value * positive))
    (entry msgType uuid sessionId message : value)
    (projectPath conversationId text : string) (timestamp : Date)
    (env : Env) (w : World L) (l : L) (e : exn) :
  get entry "type" = Some msgType ->
  get entry "uuid" = Some uuid ->
  truthy uuid = true ->
  Set_has (processedMessages (this w)) uuid = false ->
  get entry "message" = Some message ->
  extractText message = VStr text ->
  timestamp_of entry env = Return timestamp ->
  dryRun (options (this w)) = false ->
  langfuse (this w) = Some l ->
  (msgType = VStr "user"
   /\ fst (trace (traceData entry msgType uuid sessionId projectPath conversationId
                    text timestamp) l) = Throw e)
  \/ (msgType = VStr "assistant"
      /\ fst (generation (generationData entry msgType uuid projectPath conversationId
                            text timestamp) l) = Throw e) ->
  let handle := fun x => processMessage x sessionId projectPath conversationId in
  let w' := snd (handle entry env w) in
  fst (handle entry env w) = Return tt
  /\ (forall rest, for_of (entry :: rest) handle env w = for_of rest handle env w')
  /\ console w'
     = (console w ++ [Log (echo msgType projectPath text);
                      Err ("Error creating trace: " ++ message_of e)])%list
  /\ Set_has (processedMessages (this w')) uuid = true
  /\ (forall events entry' sessionId' projectPath' conversationId' env',
         get entry' "uuid" = Some uuid ->
         let w'' := watch JSON_parse events w' in
         processMessage entry' sessionId' projectPath' conversationId' env' w''
         = (Return tt, w'')).
Proof.
  intros Ht Hu Htruthy Hfresh Hm Htext Hdate Hdry Hl Hthrows handle w'.
  assert (Hk : includes [VStr "user"; VStr "assistant"] msgType = true)
    by (destruct Hthrows as [[-> _]|[-> _]]; reflexivity).
  assert (Hrec : Set_has (processedMessages (this w')) uuid = true)
    by (apply (processMessage_records entry msgType); assumption).
  assert (Hrun : handle entry env w
                 = (Return tt,
                    set_console
                      (console w ++ [Log (echo msgType projectPath text);
                                     Err ("Error creating trace: " ++ message_of e)])%list
                      (snd (handle entry env w)))).
  { unfold handle.
    rewrite (processMessage_fresh entry msgType uuid) by assumption.
    set (marked := set_processedMessages _ w).
    destruct Hthrows as [[-> Hthrow]|[-> Hthrow]].
    - rewrite (forward_user entry uuid sessionId projectPath conversationId
                 message text timestamp env marked l Hm Htext Hdate Hdry Hl).
      destruct (trace _ l) as [[[]|e0] l1]; simpl in Hthrow; [discriminate|].
      injection Hthrow as ->. unfold reported, echoed. simpl.
      now rewrite <- app_assoc.
    - rewrite (forward_assistant entry uuid sessionId projectPath conversationId
                 message text timestamp env marked l Hm Htext Hdate Hdry Hl).
      destruct (generation _ l) as [[[]|e0] l1]; simpl in Hthrow; [discriminate|].
      injection Hthrow as ->. unfold reported, echoed. simpl.
      now rewrite <- app_assoc. }
  assert (Hret : fst (handle entry env w) = Return tt) by now rewrite Hrun.
  split; [exact Hret|]. split; [|split; [|split]].
  - intros rest. simpl. unfold bind at 1. fold w'.
    destruct (handle entry env w) as [[[]|e0] w0] eqn:E; simpl in *;
      [subst w'; reflexivity | discriminate].
  - unfold w'. rewrite Hrun at 1. reflexivity.
  - exact Hrec.
  - intros events entry' sessionId' projectPath' conversationId' env' Hu' w''.
    apply (recorded_id_is_dropped JSON_parse entry' uuid uuid); try assumption.
    apply same_value_zero_refl.
Qed.

Lemma C8_forwarding_error_is_caught_witness :
  exists w : World unit,
    @fresh unit Unreachable_Langfuse Fixture.JSON_parse Arg.empty Fixture.env = Return w
    /\ let r := @processMessage unit Unreachable_Langfuse Fixture.hello
                   (VStr "session-123") "/test/project" "conv-123" Fixture.env w in
       fst r = Return tt
       /\ console (snd r)
          = [Log (echo (VStr "user") "/test/project" "Hello");
             Err "Error creating trace: fetch failed"]
       /\ Set_has (processedMessages (this (snd r))) (VStr "test-uuid-123") = true.
Proof.
  once_constructed w. intros r.
  destruct (@C8_forwarding_error_is_caught unit Unreachable_Langfuse
              Fixture.JSON_parse Fixture.hello (VStr "user") (VStr "test-uuid-123")
              (VStr "session-123") (VObj 2 [("text", VStr "Hello")])
              "/test/project" "conv-123" "Hello"
              (NewDate (VStr "2025-01-01T00:00:00.000Z")) Fixture.env w tt
              (Error "fetch failed")
              eq_refl eq_refl eq_refl eq_refl eq_refl eq_refl eq_refl eq_refl eq_refl
              (or_introl (conj eq_refl eq_refl)))
    as (Hret & _ & Hconsole & Hrec & _).
  split; [exact Hret|]. split; [exact Hconsole | exact Hrec].
Defined.

(** ** Session identity *)

(** C7. Session identity resolution is deterministic and idempotent.
    The digest of ["{projectPath}:{conversationId}"] is 32 hexadecimal
    characters. The first resolution of a file path returns this digest
    and caches it under the path. Every resolution returns a string, and
    whatever files the watcher reports afterwards, a later resolution of
    the same path (under whatever project path and conversation id is
    passed) returns the identical value. *)
Theorem C7_session_identity {L : Type} `{!Langfuse L}
    (JSON_parse : string -> positive -> option (value * positive))
    (filepath projectPath conversationId : string) (env : Env) (w : World L) :
  let digest := MD5.hexdigest (projectPath ++ ":" ++ conversationId) in
  (String.length digest = 32%nat /\ all_hex digest = true)
  /\ (conversationSessions (this w) !! filepath = None ->
      resolveSession filepath projectPath conversationId env w
      = (Return (VStr digest),
         set_conversationSessions
           (<[filepath := digest]> (conversationSessions (this w))) w))
  /\ (exists sessionId,
         fst (resolveSession filepath projectPath conversationId env w)
         = Return (VStr sessionId))
  /\ (forall events projectPath' conversationId' env',
         let w1 := snd (resolveSession filepath projectPath conversationId env w) in
         fst (resolveSession filepath projectPath' conversationId' env'
                (watch JSON_parse events w1))
         = fst (resolveSession filepath projectPath conversationId env w)).
Proof.
  intros digest.
  assert (Hres : exists sessionId,
             fst (resolveSession filepath projectPath conversationId env w)
             = Return (VStr sessionId)
             /\ conversationSessions
                  (this (snd (resolveSession filepath projectPath conversationId env w)))
                !! filepath = Some sessionId).
  { destruct (conversationSessions (this w) !! filepath) as [sid|] eqn:Hk.
    - exists sid. now rewrite (resolveSession_cached filepath _ _ sid env w Hk).
    - exists digest. rewrite (resolveSession_first filepath _ _ env w Hk). simpl.
      split; [reflexivity | apply lookup_insert_eq]. }
  split; [apply hexdigest_shape|]. split; [|split].
  - intros Hk. now apply resolveSession_first.
  - destruct Hres as (sid & Hsid & _). eauto.
  - intros events projectPath' conversationId' env' w1.
    destruct Hres as (sid & Hsid & Hcached). fold w1 in Hcached.
    rewrite Hsid.
    erewrite resolveSession_cached; [reflexivity|].
    eapply lookup_weaken; [exact Hcached|].
    apply watch_keeps_sessions.
Qed.

Lemma C7_session_identity_witness :
  exists w : World Mock.t,
    fresh Fixture.JSON_parse Arg.empty Fixture.env = Return w
    /\ resolveSession Fixture.conv1 "a/b/c" "conv1" Fixture.env w
       = (Return (VStr (MD5.hexdigest "a/b/c:conv1")),
          set_conversationSessions
            (<[Fixture.conv1 := MD5.hexdigest "a/b/c:conv1"]> ∅) w).
Proof.
  once_constructed w.
  apply (proj1 (proj2 (C7_session_identity Fixture.JSON_parse
                         Fixture.conv1 "a/b/c" "conv1" Fixture.env w))).
  reflexivity.
Defined.

(** ** The end-to-end scenario *)


Section OneLine.
Context {L : Type} `{!Langfuse L}.
Variable JSON_parse : string -> positive -> option (value * positive).

Implicit Types (w : World L) (env : Env) (sessionId : value).

Lemma processLine_returns sessionId projectPath conversationId line env w :
  fst (processLine JSON_parse sessionId projectPath conversationId line env w) = Return tt.
Proof.
  unfold processLine, try_catch.
  destruct (bind _ _ env w) as [[[]|e] w1]; reflexivity.
Qed.


End OneLine.




(** The session id of the scenario, spelled out. *)
Example scenario_session_id :
  MD5.hexdigest "a/b/c:conv1" = "42c2e411897e8fdc15fb31c82131beb4".
Proof. vm_compute. reflexivity. Qed.

(** ** Where the code departs from its specification and tests *)

(** C2. Tool blocks are not summarized. The text of a message is read
    from its [text] property alone: a payload that holds its blocks
    under [content] extracts to the empty string, whatever the blocks
    are. On the [tool_use] entry of the tests the generation is
    forwarded with an empty output, on the [tool_result] entry the trace
    is forwarded with an empty input, and the echo line shows no
    text. *)
Theorem C2_tool_blocks_extract_to_empty_text :
  (forall ref content, extractText (VObj ref [("content", content)]) = VStr "")
  /\ (exists w : World Mock.t,
         fresh Fixture.JSON_parse Arg.empty Fixture.env = Return w
         /\ let w' := snd (processMessage Fixture.tool_use (VStr "session-123")
                             "/test/project" "conv-123" Fixture.env w) in
            console w' = [Log "🤖 [project] ..."]
            /\ exists record client,
                 langfuse (this w') = Some client
                 /\ Mock.generations client = [record]
                 /\ Generation.id record = VStr "test-tool-use"
                 /\ Generation.output record = "")
  /\ (exists w : World Mock.t,
         fresh Fixture.JSON_parse Arg.empty Fixture.env = Return w
         /\ let w' := snd (processMessage Fixture.tool_result (VStr "session-123")
                             "/test/project" "conv-123" Fixture.env w) in
            console w' = [Log "👤 [project] ..."]
            /\ exists record client,
                 langfuse (this w') = Some client
                 /\ Mock.traces client = [record]
                 /\ Trace.id record = VStr "test-tool-result"
                 /\ Trace.input record = "").
Proof.
  split; [reflexivity|].
  split; once_constructed w; intros w';
    (split; [vm_compute; reflexivity|]); eexists _, _;
    (split; [vm_compute; reflexivity|]); repeat split.
Qed.

(** C3. Quiet mode is ignored. The constructor keeps [historyHours],
    [daemon] and [dryRun] of its argument and nothing else, so that the
    monitor is the same whatever [quiet] is; and on the entry of the
    quiet-mode tests the preview line is printed, with [quiet: true] as
    without it. *)
Theorem C3_quiet_mode_is_ignored (quiet : option bool) :
  fresh (L:=Mock.t) Fixture.JSON_parse (Fixture.with_quiet quiet) Fixture.env
  = fresh (L:=Mock.t) Fixture.JSON_parse (Fixture.with_quiet None) Fixture.env
  /\ exists w : World Mock.t,
       fresh Fixture.JSON_parse (Fixture.with_quiet quiet) Fixture.env = Return w
       /\ console
            (snd (processMessage Fixture.quiet_test (VStr "session-123")
                    "/test/project" "conv-123" Fixture.env w))
          = [Log "👤 [project] Test message..."].
Proof.
  split; [reflexivity|]. once_constructed w. vm_compute. reflexivity.
Qed.

(** C4. There are no counters. After the two entries of the test on
    message counts the instance holds its options, the two ids, an empty
    session cache, its configuration and no client, and nothing more;
    and two entries that differ in their kind only leave the same
    instance behind, so that nothing in it tells a user message from an
    assistant message. *)
Theorem C4_no_message_counters (quiet : option bool) :
  exists w : World Mock.t,
    fresh Fixture.JSON_parse (Fixture.with_quiet quiet) Fixture.env = Return w
    /\ let handle := fun entry =>
         processMessage entry (VStr "session-123") "/test/project" "conv-123"
           Fixture.env in
       let w2 := snd (handle Fixture.assistant_msg (snd (handle Fixture.user_msg w))) in
       let of_kind := fun kind =>
         VObj 20 [("type", VStr kind); ("uuid", VStr "some-msg");
                  ("message", VStr "A message")] in
       this w2
       = {| options := {| historyHours := 24; daemon := false; dryRun := true |};
            processedMessages := [VStr "user-msg"; VStr "assistant-msg"];
            conversationSessions := ∅;
            config := VObj 1 [("host", VStr "http://localhost:3001");
                              ("publicKey", VStr ""); ("secretKey", VStr "")];
            langfuse := None |}
       /\ this (snd (handle (of_kind "user") w))
          = this (snd (handle (of_kind "assistant") w)).
Proof. once_constructed w. split; vm_compute; reflexivity. Qed.

(** C5. A lookback window of zero does not skip the backfill. The
    constructor reads [options.historyHours || 24], and zero is falsy:
    the monitor built with [historyHours: 0] has a window of 24 hours,
    and [start] scans the history, finds the conversation written an
    hour ago and forwards its entry before watching begins. *)
Theorem C5_zero_hours_runs_the_backfill :
  exists w : World Mock.t,
    fresh Fixture.JSON_parse (Fixture.with_history 0) Fixture.env = Return w
    /\ let w' := snd (start Fixture.JSON_parse Fixture.env w) in
       historyHours (options (this w)) = 24%Z
       /\ console w'
          = [Log "📁 Claude projects: /home/u/.claude/projects";
             Log "📚 Processing last 24 hours...";
             Log "  Found 1 recent conversations";
             Log "👤 [c] hi...";
             Log "✅ Processed 1 conversations";
             Log (nl ++ "👀 Watching for new Claude Code activity...");
             Log "🔗 Langfuse UI: http://localhost:3001";
             Log ("⏹  Press Ctrl+C to stop" ++ nl)]
       /\ processedMessages (this w') = [VStr "m1"]
       /\ exists record client,
            langfuse (this w') = Some client
            /\ Mock.traces client = [record]
            /\ Trace.id record = VStr "m1".
Proof.
  once_constructed w. intros w'.
  split; [reflexivity|]. split; [vm_compute; reflexivity|].
  split; [vm_compute; reflexivity|].
  eexists _, _. split; [vm_compute; reflexivity|]. split; reflexivity.
Qed.

(** [start] skips the backfill whenever the window the monitor holds is
    zero or negative (the constructor never stores zero, a negative
    window it stores as given). No file is read and nothing is recorded
    before watching begins. *)
Lemma start_skips_backfill_when_not_positive {L : Type} `{!Langfuse L}
    (JSON_parse : string -> positive -> option (value * positive))
    (env : Env) (tree : completion (list dirent)) (w : World L) (host : value)
    (url : string) :
  (historyHours (options (this w)) <= 0)%Z ->
  projects env = Some tree ->
  get (config (this w)) "host" = Some host ->
  to_string host = Return url ->
  start JSON_parse env w
  = (Return tt,
     set_console
       (console w
        ++ [Log ("📁 Claude projects: " ++ path_join [homedir env; ".claude"; "projects"]);
            Log (nl ++ "👀 Watching for new Claude Code activity...");
            Log ("🔗 Langfuse UI: " ++ url);
            Log ("⏹  Press Ctrl+C to stop" ++ nl)])%list w).
Proof.
  intros Hle Htree Hhost Hurl. unfold start, bind, getClaudeProjectsDir.
  rewrite Htree. simpl.
  destruct (Z.gtb_spec (historyHours (options (this w))) 0); [lia|]. simpl.
  unfold read. rewrite Hhost. unfold ret, lift. rewrite Hurl.
  unfold console_log, modify, set_console. simpl. now rewrite <- !app_assoc.
Qed.

Lemma negative_window_is_kept {L : Type} `{!Langfuse L}
    (JSON_parse : string -> positive -> option (value * positive))
    (hours : Z) (env : Env) (w : World L) :
  (hours < 0)%Z ->
  fresh JSON_parse (Fixture.with_history hours) env = Return w ->
  historyHours (options (this w)) = hours.
Proof.
  intros Hneg Hnew.
  destruct (fresh_monitor JSON_parse _ env w Hnew) as (-> & _).
  simpl. destruct (Z.eqb_spec hours 0); [lia | reflexivity].
Qed.

(** C9. The local echo raises on a text that is not a string. On the
    line [{"type":"user","uuid":"u1","message":{"text":42}}] the
    extracted text is the number 42, [text.substring] is no function,
    and [processMessage] throws a [TypeError] after it recorded the id
    and before it printed or forwarded anything. *)
Theorem C9_echo_raises_on_a_number (options : Arg.t) :
  exists w : World Mock.t,
    fresh Fixture.JSON_parse options Fixture.env = Return w
    /\ extractText (field Fixture.numeric_text "message") = VNum 42
    /\ processMessage Fixture.numeric_text (VStr "session-123")
         "/test/project" "conv-123" Fixture.env w
       = (Throw (TypeError "text.substring is not a function"),
          set_processedMessages [VStr "u1"] w).
Proof.
  unfold fresh, Monitor_new, bind, loadConfig, asks, read, ret. simpl.
  destruct (bool_or_false (Arg.dryRun options)); simpl;
    (eexists; split; [reflexivity|]; split; reflexivity).
Qed.

(* ===================================================================== *)
(** * Further properties of the code *)
(* ===================================================================== *)

(** ** The scan of [processExistingHistory] *)

Section Scan.
Variable cutoffTime : Z.

Local Abbreviation entry_scope := (entry_scope cutoffTime).
Local Abbreviation scanned := (scanned cutoffTime).

Lemma entries_scope (dir : string) (entries : list dirent) (path : string) :
  (exists entry, In entry entries /\ entry_scope dir entry path)
  <-> exists name mtimeMs,
        file_in dir entries path name mtimeMs
        /\ endsWith name ".jsonl" = true /\ (cutoffTime <= mtimeMs)%Z.
Proof.
  split.
  - intros ([name mtimeMs|sub below] & Hin & Hscope); simpl in Hscope.
    + destruct Hscope as (time & -> & -> & Hext & Hnew). exists name, time.
      split; [now apply file_here | auto].
    + destruct Hscope as (entries' & name & mtimeMs & -> & Hfile & Hext & Hnew).
      exists name, mtimeMs. split; [now apply (file_below dir entries sub entries') | auto].
  - intros (name & mtimeMs & Hfile & Hext & Hnew).
    destruct Hfile as [dir entries name mtimeMs Hin | dir entries sub below path name mtimeMs Hin Hfile].
    + exists (File name (Return mtimeMs)). split; [exact Hin|]. simpl. eauto.
    + exists (Directory sub (Return below)). split; [exact Hin|]. simpl. eauto 10.
Qed.

Lemma collect_scope (dir : string) (entries : list dirent) :
  Forall (fun entry => forall dir, scanned dir entry) entries ->
  match collect (findConversations_entry cutoffTime dir) entries with
  | Return found =>
      forallb readable_entry entries = true
      /\ forall path,
           In path found <-> exists entry, In entry entries /\ entry_scope dir entry path
  | Throw _ => forallb readable_entry entries = false
  end.
Proof.
  induction 1 as [|entry rest Hentry _ IH]; simpl.
  - split; [reflexivity|]. intros path. split; [intros [] | intros (_ & [] & _)].
  - specialize (Hentry dir). unfold scanned in Hentry.
    destruct (findConversations_entry cutoffTime dir entry) as [found|e].
    2:{ now rewrite Hentry. }
    destruct Hentry as [-> Hfound].
    destruct (collect _ rest) as [more|e]; [|exact IH].
    destruct IH as [-> Hmore]. split; [reflexivity|].
    intros path. rewrite in_app_iff, Hfound, Hmore. split.
    + intros [Hhere | (x & Hin & Hx)]; [exists entry; auto | exists x; auto].
    + intros (x & [<-|Hin] & Hx); [now left | right; eauto].
Qed.

Lemma findConversations_entry_scope (entry : dirent) : forall dir, scanned dir entry.
Proof.
  induction entry as [name mtimeMs | sub e | sub below IH] using dirent_nested_ind;
    intros dir; unfold scanned.
  - simpl. destruct (endsWith name ".jsonl") eqn:Hext.
    2:{ split; [now destruct mtimeMs|].
        intros path. split; [intros [] | intros (_ & _ & _ & ? & _); discriminate]. }
    destruct mtimeMs as [time|e]; [|reflexivity].
    destruct (Z.geb_spec time cutoffTime) as [Hge|Hlt];
      (split; [reflexivity|]; intros path).
    + split.
      * intros [<-|[]]. exists time. auto with zarith.
      * intros (_ & _ & -> & _). now left.
    + split; [intros [] | intros (time' & [= <-] & _ & _ & ?); lia].
  - reflexivity.
  - simpl findConversations_entry. simpl readable_entry.
    pose proof (collect_scope (path_join [dir; sub]) below IH) as Hscan.
    destruct (collect _ below) as [found|e]; [|exact Hscan].
    destruct Hscan as [Hread Hfound]. split; [exact Hread|].
    intros path. rewrite Hfound, entries_scope. simpl. split.
    + intros (name & mtimeMs & Hfile). exists below, name, mtimeMs. auto.
    + intros (below' & name & mtimeMs & [= <-] & Hfile). eauto.
Qed.
End Scan.

(** X1. Backfill scoping. The scan throws exactly when it meets a
    directory that does not list or a file named [*.jsonl] that has no
    modification time; otherwise it returns exactly the paths of the
    files of the tree, at any depth, whose name ends with [.jsonl] and
    whose modification time is at or after the cutoff. *)
Theorem findConversations_scope
    (cutoffTime : Z) (dir : string) (tree : completion (list dirent)) :
  match findConversations cutoffTime dir tree with
  | Return found =>
      readable tree = true
      /\ exists entries,
           tree = Return entries
           /\ forall path,
                In path found
                <-> exists name mtimeMs,
                      file_in dir entries path name mtimeMs
                      /\ endsWith name ".jsonl" = true /\ (cutoffTime <= mtimeMs)%Z
  | Throw _ => readable tree = false
  end.
Proof.
  destruct tree as [entries|e]; [|reflexivity]. simpl.
  pose proof (collect_scope cutoffTime dir entries) as Hscan.
  destruct (collect _ entries) as [found|e].
  - destruct Hscan as [Hread Hfound].
    { apply List.Forall_forall. intros entry _. apply findConversations_entry_scope. }
    split; [exact Hread|]. exists entries. split; [reflexivity|].
    intros path. now rewrite Hfound, entries_scope.
  - apply Hscan. apply List.Forall_forall. intros entry _.
    apply findConversations_entry_scope.
Qed.

Lemma collect_later {A B} (f g : A -> completion (list B)) (l : list A) :
  Forall (fun x => narrows (f x) (g x)) l ->
  narrows (collect f l) (collect g l).
Proof.
  induction 1 as [|x rest Hx _ IH]; unfold narrows; simpl; [reflexivity|].
  unfold narrows in Hx.
  destruct (f x) as [wide|e], (g x) as [narrow|e']; try contradiction; [|exact Hx].
  unfold narrows in IH.
  destruct (collect f rest) as [wide'|e], (collect g rest) as [narrow'|e'];
    try contradiction; [|exact IH].
  simpl. now apply sublist_app.
Qed.

Lemma findConversations_entry_later (early late : Z) (entry : dirent) :
  (early <= late)%Z ->
  forall dir,
    narrows (findConversations_entry early dir entry)
            (findConversations_entry late dir entry).
Proof.
  intros Hle.
  induction entry as [name mtimeMs | sub e | sub below IH] using dirent_nested_ind;
    intros dir; simpl.
  - unfold narrows. destruct (endsWith name ".jsonl"); [|reflexivity].
    destruct mtimeMs as [time|e]; [|reflexivity].
    destruct (Z.geb_spec time late), (Z.geb_spec time early); simpl;
      try reflexivity; [lia | apply sublist_nil_l].
  - reflexivity.
  - apply collect_later. rewrite List.Forall_forall in IH.
    apply List.Forall_forall. intros entry Hin. now apply IH.
Qed.

(** X2. The cutoff decides what the scan returns, not whether it
    returns: for two cutoffs the scans of a tree throw the same error or
    return both, and what the later cutoff returns is a subsequence, in
    the same order, of what the earlier one returns. *)
Theorem findConversations_later_cutoff
    (early late : Z) (dir : string) (tree : completion (list dirent)) :
  (early <= late)%Z ->
  match findConversations early dir tree, findConversations late dir tree with
  | Return wide, Return narrow => narrow `sublist_of` wide
  | Throw e, Throw e' => e = e'
  | _, _ => False
  end.
Proof.
  intros Hle. destruct tree as [entries|e]; [|reflexivity]. simpl.
  apply (collect_later (findConversations_entry early dir)
                       (findConversations_entry late dir)).
  apply List.Forall_forall. intros entry _. now apply findConversations_entry_later.
Qed.

Lemma findConversations_later_cutoff_witness :
  let tree :=
    Return [Directory "a-b-c" (Return [File "conv1.jsonl" (Return 1735689600000);
                                       File "conv2.jsonl" (Return 1735693200001)])] in
  findConversations 1735689600000 "/home/u/.claude/projects" tree
  = Return ["/home/u/.claude/projects/a-b-c/conv1.jsonl";
            "/home/u/.claude/projects/a-b-c/conv2.jsonl"]
  /\ findConversations 1735693200000 "/home/u/.claude/projects" tree
     = Return ["/home/u/.claude/projects/a-b-c/conv2.jsonl"]
  /\ ["/home/u/.claude/projects/a-b-c/conv2.jsonl"]
       `sublist_of` ["/home/u/.claude/projects/a-b-c/conv1.jsonl";
                     "/home/u/.claude/projects/a-b-c/conv2.jsonl"].
Proof.
  intros tree.
  pose proof (findConversations_later_cutoff 1735689600000 1735693200000
                "/home/u/.claude/projects" tree ltac:(lia)) as H.
  split; [reflexivity|]. split; [reflexivity|]. exact H.
Defined.

(** ** Segments of a path and the decoding of the project *)

(** No segment holds the separator. *)
Lemma split_segment_has_no_separator (sep : ascii) (s seg : string) :
  In seg (split sep s) -> contains sep seg = false.
Proof.
  revert seg. induction s as [|x s IH]; simpl; intros seg Hin.
  - destruct Hin as [<-|[]]. reflexivity.
  - destruct (Ascii.eqb x sep) eqn:Hx.
    + destruct Hin as [<-|Hin]; [reflexivity | now apply IH].
    + pose proof (split_nonempty sep s) as Hne.
      destruct (split sep s) as [|h tl]; [contradiction|].
      destruct Hin as [<-|Hin].
      * simpl. rewrite Hx. apply IH. now left.
      * apply IH. now right.
Qed.

Lemma replace_all_length (c d : ascii) (s : string) :
  String.length (replace_all c d s) = String.length s.
Proof. induction s as [|x s IH]; simpl; [reflexivity | now rewrite IH]. Qed.

Lemma replace_all_removes (c d : ascii) (s : string) :
  c <> d -> contains c (replace_all c d s) = false.
Proof.
  intros Hcd. induction s as [|x s IH]; simpl; [reflexivity|].
  rewrite IH, orb_false_r.
  destruct (Ascii.eqb_spec x c) as [->|Hx].
  - apply Ascii.eqb_neq. congruence.
  - now apply Ascii.eqb_neq.
Qed.

Lemma replace_all_injective (c d : ascii) (s t : string) :
  contains d s = false -> contains d t = false ->
  replace_all c d s = replace_all c d t -> s = t.
Proof.
  revert t. induction s as [|x s IH]; intros [|y t]; simpl; try discriminate;
    [reflexivity|].
  intros Hs Ht Heq.
  apply orb_false_iff in Hs as [Hx Hs]. apply orb_false_iff in Ht as [Hy Ht].
  apply Ascii.eqb_neq in Hx, Hy.
  injection Heq as Hhead Htail. f_equal; [|now apply IH].
  destruct (Ascii.eqb_spec x c), (Ascii.eqb_spec y c); congruence.
Qed.

(** X3. Decoding of the project segment. A segment of a path holds no
    separator, so that on the segments of paths the decoding (every [-]
    becomes [/]) is injective: two project directories with different
    names never decode to the same project path. The decoded path has
    the length of the segment and holds no [-]. *)
Theorem project_decoding_is_injective (filepath1 filepath2 segment1 segment2 : string) :
  In segment1 (split "/" filepath1) ->
  In segment2 (split "/" filepath2) ->
  String.length (replace_all "-" "/" segment1) = String.length segment1
  /\ contains "-" (replace_all "-" "/" segment1) = false
  /\ (replace_all "-" "/" segment1 = replace_all "-" "/" segment2 ->
      segment1 = segment2).
Proof.
  intros H1 H2. split; [apply replace_all_length|].
  split; [now apply replace_all_removes|].
  apply replace_all_injective; eapply split_segment_has_no_separator; eassumption.
Qed.

Lemma project_decoding_is_injective_witness :
  String.length (replace_all "-" "/" "Users-test-Documents-github-myproject") = 37%nat
  /\ contains "-" (replace_all "-" "/" "Users-test-Documents-github-myproject") = false
  /\ (replace_all "-" "/" "Users-test-Documents-github-myproject"
      = replace_all "-" "/" "Users-test-Documents-github-myproject" ->
      "Users-test-Documents-github-myproject" = "Users-test-Documents-github-myproject").
Proof.
  apply (project_decoding_is_injective
           "/mock/home/.claude/projects/Users-test-Documents-github-myproject/c.jsonl"
           "/mock/home/.claude/projects/Users-test-Documents-github-myproject/d.jsonl");
    vm_compute; tauto.
Defined.

(** ** The layout of a path *)

Lemma indexOf_range (l : list string) (x : string) :
  indexOf l x = (-1)%Z \/ (0 <= indexOf l x < Z.of_nat (length l))%Z.
Proof.
  induction l as [|y l IH]; simpl; [now left|].
  destruct (String.eqb y x); [right; lia|].
  destruct (Z.eqb_spec (indexOf l x) (-1)); [now left | right; lia].
Qed.


(** Past the guard the project segment exists. *)
Lemma layout_has_project (pathParts : list string) :
  let projectsIdx := indexOf pathParts "projects" in
  ((projectsIdx =? -1)%Z || (projectsIdx >=? Z.of_nat (length pathParts) - 2)%Z = false) ->
  exists encodedProject, at_index pathParts (projectsIdx + 1) = Some encodedProject.
Proof.
  intros projectsIdx Hguard. apply orb_false_iff in Hguard as [Hne Hlt].
  apply Z.eqb_neq in Hne. rewrite Z.geb_leb in Hlt. apply Z.leb_gt in Hlt.
  destruct (indexOf_range pathParts "projects") as [|Hrange]; [contradiction|].
  fold projectsIdx in Hrange. unfold at_index.
  destruct (Z.ltb_spec (projectsIdx + 1) 0); [lia|].
  destruct (nth_error pathParts (Z.to_nat (projectsIdx + 1))) eqn:Hnth; [eauto|].
  apply nth_error_None in Hnth. lia.
Qed.

Section Layout.
Context {L : Type} `{!Langfuse L}.
Variable JSON_parse : string -> positive -> option (value * positive).

Implicit Types (w : World L) (env : Env) (filepath : string).

(** A path outside the layout is left alone. *)
Lemma processConversationFile_outside filepath env w :
  identity_of filepath = None ->
  processConversationFile JSON_parse filepath env w = (Return tt, w).
Proof.
  unfold identity_of, processConversationFile, try_catch. cbv zeta.
  destruct (_ || _) eqn:Hguard; [reflexivity|].
  destruct (layout_has_project _ Hguard) as (encodedProject & ->). discriminate.
Qed.

(** A path of the layout: the session, then the file. *)
Lemma processConversationFile_inside filepath projectPath conversationId env w :
  identity_of filepath = Some (projectPath, conversationId) ->
  processConversationFile JSON_parse filepath env w
  = try_catch
      (sessionId <- resolveSession filepath projectPath conversationId ;;
       content <- fs_readFileSync filepath ;;
       for_of (List.filter nonblank (split newline content))
              (processLine JSON_parse sessionId projectPath conversationId))
      (fun error =>
         console_error ("Error processing " ++ filepath ++ ": " ++ message_of error))
      env w.
Proof.
  unfold identity_of, processConversationFile. cbv zeta.
  destruct (_ || _); [discriminate|].
  destruct (at_index _ _) as [encodedProject|]; [|discriminate].
  intros [= <- <-]. reflexivity.
Qed.
End Layout.



(** ** The identity a path gives *)

(** For a file [<root>/projects/<segment>/<name>.jsonl], under a root
    with no segment [projects] of its own, with a non-empty name, the
    project path is the segment with every [-] turned into [/] and the
    conversation id is the name. *)
Lemma identity_of_a_conversation_file (root segment name : string) :
  ~ In "projects" (split "/" root) ->
  contains "/" segment = false ->
  contains "/" name = false ->
  name <> EmptyString ->
  identity_of (root ++ "/projects/" ++ segment ++ "/" ++ name ++ ".jsonl")
  = Some (replace_all "-" "/" segment, name).
Proof.
  intros Hroot Hsegment Hname Hne. unfold identity_of. cbv zeta.
  set (filepath := root ++ "/projects/" ++ segment ++ "/" ++ name ++ ".jsonl").
  assert (Hfile : contains "/" (name ++ ".jsonl") = false)
    by (rewrite contains_app, Hname; reflexivity).
  assert (Hparts : split "/" filepath
                   = (split "/" root
                        ++ ["projects"; segment; (name ++ ".jsonl")%string])%list).
  { unfold filepath.
    change (root ++ "/projects/" ++ segment ++ "/" ++ name ++ ".jsonl")
      with (root ++ String "/"
              ("projects" ++ String "/" (segment ++ String "/" (name ++ ".jsonl")))).
    rewrite !split_app_sep.
    rewrite (split_without_separator "/" _ Hsegment),
            (split_without_separator "/" _ Hfile).
    reflexivity. }
  rewrite Hparts, (indexOf_app_first _ _ _ Hroot), length_app. simpl length.
  replace (_ || _) with false.
  2:{ symmetry. apply orb_false_iff. split; [apply Z.eqb_neq; lia|].
      rewrite Z.geb_leb. apply Z.leb_gt. lia. }
  change (Z.of_nat (length (split "/" root)) + 1)%Z
    with (Z.of_nat (length (split "/" root)) + Z.of_nat 1)%Z.
  rewrite at_index_app. simpl nth_error. f_equal. f_equal.
  unfold filepath.
  replace (root ++ "/projects/" ++ segment ++ "/" ++ name ++ ".jsonl")
    with ((root ++ "/projects/" ++ segment) ++ "/" ++ name ++ ".jsonl")
    by now rewrite !append_assoc.
  now apply basename_of_conversation.
Qed.

(** ** The cache of session ids *)

Section Sessions.
Context {L : Type} `{!Langfuse L}.
Variable JSON_parse : string -> positive -> option (value * positive).

Implicit Types (w : World L) (env : Env) (filepath : string).

Lemma processLine_keeps_settings sessionId projectPath conversationId line :
  keeps settings eq (processLine JSON_parse sessionId projectPath conversationId line).
Proof.
  intros env w. unfold processLine, try_catch, bind, parse.
  destruct (JSON_parse line (next_ref w)) as [[entry n]|]; [|reflexivity].
  pose proof (processMessage_keeps_fields entry sessionId projectPath conversationId
                env (set_next_ref n w)) as (Ho & Hs & Hc & _).
  destruct (processMessage _ _ _ _ env _) as [[[]|e] w1]; simpl in *;
    unfold settings; now rewrite Ho, Hs, Hc.
Qed.

Lemma lines_keep_settings sessionId projectPath conversationId lines :
  keeps settings eq
    (for_of lines (processLine JSON_parse sessionId projectPath conversationId)).
Proof.
  apply keeps_for_of; [reflexivity | intros a b c; apply eq_trans|].
  intros line. apply processLine_keeps_settings.
Qed.

(** What a call leaves in the cache: for a path of the layout, what the
    resolution of its session leaves; for any other path, what was
    there. *)
Lemma processConversationFile_sessions filepath env w :
  conversationSessions (this (snd (processConversationFile JSON_parse filepath env w)))
  = match identity_of filepath with
    | Some (projectPath, conversationId) =>
        conversationSessions
          (this (snd (resolveSession filepath projectPath conversationId env w)))
    | None => conversationSessions (this w)
    end.
Proof.
  destruct (identity_of filepath) as [[projectPath conversationId]|] eqn:Hid.
  - rewrite (processConversationFile_inside JSON_parse filepath projectPath
               conversationId env w Hid).
    unfold try_catch, bind at 1.
    destruct (resolveSession filepath projectPath conversationId env w)
      as [[sessionId|e] w1]; [|reflexivity].
    unfold bind at 1, fs_readFileSync.
    destruct (readFileSync env filepath) as [content|e]; [|reflexivity].
    pose proof (lines_keep_settings sessionId projectPath conversationId
                  (List.filter nonblank (split newline content)) env w1) as Hkeep.
    destruct (for_of _ _ env w1) as [[[]|e] w2]; simpl in *;
      unfold settings in Hkeep; now injection Hkeep as _ -> _.
  - now rewrite (processConversationFile_outside JSON_parse filepath env w Hid).
Qed.

Lemma processConversationFile_cache_sound filepath env w :
  cache_sound w ->
  cache_sound (snd (processConversationFile JSON_parse filepath env w)).
Proof.
  intros Hsound path sessionId. rewrite processConversationFile_sessions.
  destruct (identity_of filepath) as [[projectPath conversationId]|] eqn:Hid;
    [|apply Hsound].
  destruct (conversationSessions (this w) !! filepath) as [cached|] eqn:Hcached.
  - rewrite (resolveSession_cached filepath _ _ cached env w Hcached). apply Hsound.
  - rewrite (resolveSession_first filepath _ _ env w Hcached). simpl.
    rewrite lookup_insert. case_decide as Hpath.
    + subst path. intros [= <-]. eauto.
    + apply Hsound.
Qed.
End Sessions.

(** X5. The session of a conversation file. Processing
    [<root>/projects/<segment>/<name>.jsonl] (root with no segment
    [projects], non-empty name) on a monitor that has no session for it
    caches, under this path, the MD5 digest of the decoded segment, a
    colon and the name; this holds whether or not the file can then be
    read or parsed. *)
Theorem session_of_a_conversation_file {L : Type} `{!Langfuse L}
    (JSON_parse : string -> positive -> option (value * positive))
    (root segment name : string) (env : Env) (w : World L) :
  let filepath := root ++ "/projects/" ++ segment ++ "/" ++ name ++ ".jsonl" in
  ~ In "projects" (split "/" root) ->
  contains "/" segment = false ->
  contains "/" name = false ->
  name <> EmptyString ->
  conversationSessions (this w) !! filepath = None ->
  conversationSessions (this (snd (processConversationFile JSON_parse filepath env w)))
  !! filepath
  = Some (MD5.hexdigest (replace_all "-" "/" segment ++ ":" ++ name)).
Proof.
  intros filepath Hroot Hsegment Hname Hne Hfresh.
  rewrite processConversationFile_sessions.
  pose proof (identity_of_a_conversation_file root segment name
                Hroot Hsegment Hname Hne) as Hid.
  fold filepath in Hid. rewrite Hid.
  rewrite (resolveSession_first filepath _ _ env w Hfresh). simpl.
  apply lookup_insert_eq.
Qed.

Lemma session_of_a_conversation_file_witness :
  let filepath :=
    "/mock/home/.claude/projects/Users-test-Documents-github-myproject/conv-abc-123.jsonl" in
  exists w : World Mock.t,
    fresh Fixture.JSON_parse Fixture.dry_run Fixture.env = Return w
    /\ conversationSessions
         (this (snd (processConversationFile Fixture.JSON_parse filepath Fixture.env w)))
       !! filepath
       = Some (MD5.hexdigest "Users/test/Documents/github/myproject:conv-abc-123").
Proof.
  intros filepath. once_constructed w.
  apply (session_of_a_conversation_file Fixture.JSON_parse "/mock/home/.claude"
           "Users-test-Documents-github-myproject" "conv-abc-123").
  - vm_compute. intros [H|[H|[H|[H|[]]]]]; discriminate.
  - reflexivity.
  - reflexivity.
  - discriminate.
  - reflexivity.
Defined.

(** X6. The cache is sound. From a new monitor on, whatever files the
    watcher reports, every cached session id belongs to a path of the
    layout and is the digest of the project path and conversation id
    this path gives, a string of 32 hexadecimal characters. *)
Theorem session_cache_is_sound {L : Type} `{!Langfuse L}
    (JSON_parse : string -> positive -> option (value * positive))
    (options : Arg.t) (env : Env) (w : World L) (events : list (Env * string))
    (filepath sessionId : string) :
  fresh JSON_parse options env = Return w ->
  conversationSessions (this (watch JSON_parse events w)) !! filepath = Some sessionId ->
  (exists projectPath conversationId,
      identity_of filepath = Some (projectPath, conversationId)
      /\ sessionId = MD5.hexdigest (projectPath ++ ":" ++ conversationId))
  /\ String.length sessionId = 32%nat
  /\ all_hex sessionId = true.
Proof.
  assert (Hsound : forall w' : World L, cache_sound w' ->
                     cache_sound (watch JSON_parse events w')).
  { induction events as [|[env' path] events IH]; intros w' Hw; simpl; [exact Hw|].
    apply IH. now apply processConversationFile_cache_sound. }
  intros Hfresh.
  assert (Hnew : cache_sound w).
  { intros path cached Hpath.
    destruct (fresh_monitor JSON_parse options env w Hfresh) as (_ & _ & Hempty & _).
    rewrite Hempty, lookup_empty in Hpath. discriminate. }
  intros Hcached.
  destruct (Hsound _ Hnew _ _ Hcached) as (projectPath & conversationId & Hid & ->).
  split; [eauto|]. apply hexdigest_shape.
Qed.

Lemma session_cache_is_sound_witness :
  (exists projectPath conversationId,
      identity_of Fixture.conv1 = Some (projectPath, conversationId)
      /\ MD5.hexdigest "a/b/c:conv1"
         = MD5.hexdigest (projectPath ++ ":" ++ conversationId))
  /\ String.length (MD5.hexdigest "a/b/c:conv1") = 32%nat
  /\ all_hex (MD5.hexdigest "a/b/c:conv1") = true.
Proof.
  refine (session_cache_is_sound (L:=Mock.t) Fixture.JSON_parse Arg.empty Fixture.env
            _ [(Fixture.env, Fixture.conv1)] Fixture.conv1 (MD5.hexdigest "a/b/c:conv1")
            eq_refl _).
  vm_compute. reflexivity.
Defined.

(** ** Files that cannot be read, lines that hold no entry *)

Lemma resolveSession_result {L : Type} `{!Langfuse L}
    (filepath projectPath conversationId : string) (env : Env) (w : World L) :
  exists sessionId sessions,
    resolveSession filepath projectPath conversationId env w
    = (Return (VStr sessionId), set_conversationSessions sessions w)
    /\ sessions !! filepath = Some sessionId.
Proof.
  destruct (conversationSessions (this w) !! filepath) as [cached|] eqn:Hcached.
  - exists cached, (conversationSessions (this w)).
    rewrite (resolveSession_cached filepath _ _ cached env w Hcached).
    split; [|exact Hcached]. now destruct w as [[]].
  - eexists _, _. rewrite (resolveSession_first filepath _ _ env w Hcached).
    split; [reflexivity | apply lookup_insert_eq].
Qed.

(** X7. A file that cannot be read. When [fs.readFileSync] throws on a
    path of the layout, the call still returns; it prints one line,
    ["Error processing <path>: <message>"], and the session id of the
    path is cached all the same; the processed ids, the client and the
    options are as before. *)
Theorem unreadable_file_is_reported {L : Type} `{!Langfuse L}
    (JSON_parse : string -> positive -> option (value * positive))
    (filepath projectPath conversationId : string) (e : exn) (env : Env) (w : World L) :
  identity_of filepath = Some (projectPath, conversationId) ->
  readFileSync env filepath = Throw e ->
  let r := processConversationFile JSON_parse filepath env w in
  fst r = Return tt
  /\ console (snd r)
     = (console w ++ [Err ("Error processing " ++ filepath ++ ": " ++ message_of e)])%list
  /\ is_Some (conversationSessions (this (snd r)) !! filepath)
  /\ processedMessages (this (snd r)) = processedMessages (this w)
  /\ langfuse (this (snd r)) = langfuse (this w)
  /\ options (this (snd r)) = options (this w).
Proof.
  intros Hid Hread r.
  destruct (resolveSession_result filepath projectPath conversationId env w)
    as (sessionId & sessions & Hres & Hcached).
  assert (Hrun : r = (Return tt,
                      set_console
                        (console w ++ [Err ("Error processing " ++ filepath ++ ": "
                                            ++ message_of e)])%list
                        (set_conversationSessions sessions w))).
  { unfold r.
    rewrite (processConversationFile_inside JSON_parse filepath projectPath
               conversationId env w Hid).
    unfold try_catch, bind at 1. rewrite Hres.
    unfold bind, fs_readFileSync. rewrite Hread. reflexivity. }
  rewrite Hrun. simpl. repeat split; try reflexivity. now exists sessionId.
Qed.

Lemma unreadable_file_is_reported_witness :
  let filepath := "/home/u/.claude/projects/a-b-c/gone.jsonl" in
  exists w : World Mock.t,
    fresh Fixture.JSON_parse Arg.empty Fixture.env = Return w
    /\ let r := processConversationFile Fixture.JSON_parse filepath Fixture.env w in
       fst r = Return tt
       /\ console (snd r)
          = [Err ("Error processing " ++ filepath
                  ++ ": ENOENT: no such file or directory")]
       /\ is_Some (conversationSessions (this (snd r)) !! filepath)
       /\ processedMessages (this (snd r)) = []
       /\ langfuse (this (snd r)) = langfuse (this w)
       /\ options (this (snd r)) = options (this w).
Proof.
  intros filepath. once_constructed w.
  apply (unreadable_file_is_reported Fixture.JSON_parse filepath "a/b/c" "gone"
           (Error "ENOENT: no such file or directory") Fixture.env w);
    vm_compute; reflexivity.
Defined.

Section Lines.
Context {L : Type} `{!Langfuse L}.
Variable JSON_parse : string -> positive -> option (value * positive).

Implicit Types (w : World L) (env : Env) (sessionId : value).

Lemma for_of_app {A} (before after : list A) (body : A -> M Env (World L) unit) env w :
  (forall x env w, fst (body x env w) = Return tt) ->
  for_of (before ++ after) body env w
  = for_of after body env (snd (for_of before body env w)).
Proof.
  intros Hbody. revert w. induction before as [|x before IH]; intros w; [reflexivity|].
  simpl. unfold bind. specialize (Hbody x env w).
  destruct (body x env w) as [[[]|e] w1]; simpl in Hbody; [apply IH | discriminate].
Qed.

Lemma processLine_unparsable sessionId projectPath conversationId line env w :
  JSON_parse line (next_ref w) = None ->
  processLine JSON_parse sessionId projectPath conversationId line env w = (Return tt, w).
Proof. intros Hp. unfold processLine, try_catch, bind, parse. now rewrite Hp. Qed.

(** X8. Lines that hold no entry are skipped. A line that is not JSON
    changes nothing, so that the loop over the lines of a file does
    what it does without that line; and a line that parses to anything
    but an object ([null], a number, a string, a boolean, an array) is
    dropped as well, with nothing printed, recorded or forwarded. *)
Theorem lines_without_an_entry_are_skipped
    sessionId (projectPath conversationId : string) env w :
  (forall before line after,
      (forall n, JSON_parse line n = None) ->
      for_of (before ++ line :: after)
             (processLine JSON_parse sessionId projectPath conversationId) env w
      = for_of (before ++ after)
               (processLine JSON_parse sessionId projectPath conversationId) env w)
  /\ (forall line entry n,
      JSON_parse line (next_ref w) = Some (entry, n) ->
      (forall ref fields, entry <> VObj ref fields) ->
      processLine JSON_parse sessionId projectPath conversationId line env w
      = (Return tt, set_next_ref n w)).
Proof.
  split.
  - intros before line after Hbad.
    rewrite !for_of_app by apply processLine_returns.
    simpl. unfold bind. now rewrite processLine_unparsable.
  - intros line entry n Hp Hshape.
    unfold processLine, try_catch, bind at 1, parse. rewrite Hp.
    destruct entry; try reflexivity. now destruct (Hshape ref fields).
Qed.
End Lines.

Lemma lines_without_an_entry_are_skipped_witness :
  exists w : World Mock.t,
    fresh Fixture.JSON_parse Arg.empty Fixture.env = Return w
    /\ let body :=
         processLine Fixture.JSON_parse (VStr "session-123") "a/b/c" "conv1" in
       for_of ["invalid json"; Fixture.m1_line] body Fixture.env w
       = for_of [Fixture.m1_line] body Fixture.env w.
Proof.
  once_constructed w. intros body.
  apply (proj1 (lines_without_an_entry_are_skipped Fixture.JSON_parse
                  (VStr "session-123") "a/b/c" "conv1" Fixture.env w)
           [] "invalid json" [Fixture.m1_line]).
  reflexivity.
Defined.

(** ** Reading a file again *)

Section Rereading.
Context {L : Type} `{!Langfuse L}.
Variable JSON_parse : string -> positive -> option (value * positive).

Implicit Types (w : World L) (env : Env) (sessionId : value).

Lemma processMessage_without_entry
    (entry : value) sessionId (projectPath conversationId : string) env w :
  get entry "type" = None ->
  snd (processMessage entry sessionId projectPath conversationId env w) = w.
Proof. intros Hnone. unfold processMessage, bind, read. now rewrite Hnone. Qed.

(** A line, in one equation. *)
Lemma processLine_run sessionId (projectPath conversationId line : string) env w :
  processLine JSON_parse sessionId projectPath conversationId line env w
  = match JSON_parse line (next_ref w) with
    | Some (entry, n) =>
        (Return tt,
         snd (processMessage entry sessionId projectPath conversationId env
                (set_next_ref n w)))
    | None => (Return tt, w)
    end.
Proof.
  unfold processLine, try_catch, bind, parse.
  destruct (JSON_parse line (next_ref w)) as [[entry n]|]; [|reflexivity].
  destruct (processMessage _ _ _ _ env _) as [[[]|e] w1]; reflexivity.
Qed.

Lemma processLine_keeps_ids sessionId (projectPath conversationId line : string) :
  keeps (fun w => processedMessages (this w)) ids_kept
    (processLine JSON_parse sessionId projectPath conversationId line).
Proof.
  pose proof ids_kept_refl as Hrefl. pose proof ids_kept_trans as Htr.
  unfold processLine.
  apply keeps_try_catch; [assumption | | intros e; apply keeps_ret; assumption].
  apply keeps_bind; [assumption | | intros entry].
  - apply parse_keeps; [assumption | reflexivity].
  - apply processMessage_keeps_ids.
Qed.

Lemma settled_later (ids ids' : list value) (line : string) :
  ids_kept ids ids' -> settled JSON_parse ids line -> settled JSON_parse ids' line.
Proof.
  intros Hkept Hsettled n entry n' msgType uuid Hp Ht Hk Hu Htruthy.
  apply Hkept. now apply (Hsettled n entry n' msgType uuid).
Qed.

(** Once handled, a line is settled. *)
Lemma processLine_settles sessionId (projectPath conversationId line : string) env w :
  parses_alike JSON_parse line ->
  settled JSON_parse
    (processedMessages
       (this (snd (processLine JSON_parse sessionId projectPath conversationId
                     line env w))))
    line.
Proof.
  intros Halike n entry' n' msgType uuid Hp' Ht Hk Hu Htruthy.
  specialize (Halike (next_ref w) n). rewrite Hp' in Halike.
  rewrite processLine_run.
  destruct (JSON_parse line (next_ref w)) as [[entry m]|]; [|contradiction].
  destruct Halike as [Htype Huuid]. rewrite Ht in Htype. rewrite Hu in Huuid.
  exact (processMessage_records entry msgType uuid sessionId projectPath
           conversationId env (set_next_ref m w) Htype Hk Huuid Htruthy).
Qed.

(** A settled line changes neither the instance nor the console. *)
Lemma processLine_settled sessionId (projectPath conversationId line : string) env w :
  settled JSON_parse (processedMessages (this w)) line ->
  let w' := snd (processLine JSON_parse sessionId projectPath conversationId line env w) in
  this w' = this w /\ console w' = console w.
Proof.
  intros Hsettled w'. unfold w'. rewrite processLine_run.
  destruct (JSON_parse line (next_ref w)) as [[entry m]|] eqn:Hp; [|now split].
  assert (Hquiet : snd (processMessage entry sessionId projectPath conversationId env
                          (set_next_ref m w)) = set_next_ref m w).
  { destruct (get entry "type") as [msgType|] eqn:Ht.
    2:{ now apply processMessage_without_entry. }
    destruct (includes [VStr "user"; VStr "assistant"] msgType) eqn:Hk.
    2:{ now rewrite (processMessage_other_kind entry msgType). }
    destruct (get_total entry "type" msgType "uuid" Ht) as (uuid & Hu).
    rewrite (processMessage_dropped entry uuid); [reflexivity | exact Hu |].
    destruct (truthy uuid) eqn:Htruthy; [right | now left].
    now apply (Hsettled (next_ref w) entry m msgType uuid). }
  simpl snd. rewrite Hquiet. now split.
Qed.

Lemma lines_settle sessionId (projectPath conversationId : string) lines env w :
  (forall line, In line lines -> parses_alike JSON_parse line) ->
  forall line, In line lines ->
    settled JSON_parse
      (processedMessages
         (this (snd (for_of lines
                       (processLine JSON_parse sessionId projectPath conversationId)
                       env w))))
      line.
Proof.
  revert w. induction lines as [|x lines IH]; intros w Halike line Hin; [destruct Hin|].
  change (x :: lines) with ([x] ++ lines)%list.
  rewrite for_of_app by apply processLine_returns.
  set (w1 := snd (for_of [x] _ env w)).
  destruct Hin as [<-|Hin].
  - apply (settled_later (processedMessages (this w1))).
    + apply (keeps_for_of (fun w => processedMessages (this w)) ids_kept
               ids_kept_refl ids_kept_trans lines _
               (processLine_keeps_ids sessionId projectPath conversationId) env w1).
    + unfold w1. simpl. unfold bind.
      pose proof (processLine_returns JSON_parse sessionId projectPath conversationId
                    x env w) as Hret.
      pose proof (processLine_settles sessionId projectPath conversationId x env w
                    (Halike x (or_introl eq_refl))) as Hs.
      destruct (processLine _ _ _ _ _ env w) as [[[]|e] w0]; simpl in *;
        [exact Hs | discriminate].
  - apply IH; [|exact Hin]. intros l Hl. apply Halike. now right.
Qed.

Lemma settled_lines_are_quiet sessionId (projectPath conversationId : string) lines env w :
  (forall line, In line lines -> settled JSON_parse (processedMessages (this w)) line) ->
  let w' := snd (for_of lines
                   (processLine JSON_parse sessionId projectPath conversationId) env w) in
  this w' = this w /\ console w' = console w.
Proof.
  revert w. induction lines as [|x lines IH]; intros w Hsettled; [now split|].
  simpl. unfold bind.
  pose proof (processLine_returns JSON_parse sessionId projectPath conversationId
                x env w) as Hret.
  pose proof (processLine_settled sessionId projectPath conversationId x env w
                (Hsettled x (or_introl eq_refl))) as [Hthis Hconsole].
  destruct (processLine _ _ _ _ _ env w) as [[[]|e] w1]; simpl in *; [|discriminate].
  destruct (IH w1) as [Hthis' Hconsole'].
  - intros line Hin. rewrite Hthis. apply Hsettled. now right.
  - simpl in *. split; congruence.
Qed.
End Rereading.

Section RereadingFiles.
Context {L : Type} `{!Langfuse L}.
Variable JSON_parse : string -> positive -> option (value * positive).

Implicit Types (w : World L) (env : Env) (sessionId : value).

(** A file of the layout that can be read: the session, then the
    lines. *)
Lemma processConversationFile_readable
    (filepath projectPath conversationId content : string) sessionId env w wa :
  identity_of filepath = Some (projectPath, conversationId) ->
  readFileSync env filepath = Return content ->
  resolveSession filepath projectPath conversationId env w = (Return sessionId, wa) ->
  processConversationFile JSON_parse filepath env w
  = (Return tt,
     snd (for_of (List.filter nonblank (split newline content))
                 (processLine JSON_parse sessionId projectPath conversationId) env wa)).
Proof.
  intros Hid Hread Hres.
  rewrite (processConversationFile_inside JSON_parse filepath projectPath
             conversationId env w Hid).
  unfold try_catch, bind at 1. rewrite Hres.
  unfold bind at 1, fs_readFileSync. rewrite Hread.
  pose proof (for_of_returns (List.filter nonblank (split newline content))
                (processLine JSON_parse sessionId projectPath conversationId)
                (processLine_returns JSON_parse sessionId projectPath conversationId)
                env wa) as Hret.
  destruct (for_of _ _ env wa) as [[[]|e] w1]; simpl in *; [reflexivity | discriminate].
Qed.

(** X9. Reading a file again changes nothing. When a file is processed
    a second time with the content it had the first time (as on every
    change event for the lines already seen), and its lines parse to
    the same kinds and ids both times, the second pass leaves the
    instance (processed ids, session cache, client and the records it
    holds) and the console exactly as the first pass left them: no line
    is printed and no record is forwarded twice, also for the entries
    whose forwarding or echo failed the first time. *)
Theorem rereading_a_file_changes_nothing
    (filepath content : string) (env env' : Env) (w : World L) :
  readFileSync env filepath = Return content ->
  readFileSync env' filepath = Return content ->
  (forall line, In line (split newline content) -> parses_alike JSON_parse line) ->
  let w1 := snd (processConversationFile JSON_parse filepath env w) in
  let w2 := snd (processConversationFile JSON_parse filepath env' w1) in
  this w2 = this w1 /\ console w2 = console w1.
Proof.
  intros Hread Hread' Halike w1 w2.
  destruct (identity_of filepath) as [[projectPath conversationId]|] eqn:Hid.
  2:{ unfold w2, w1.
      rewrite !(processConversationFile_outside JSON_parse filepath _ _ Hid).
      now split. }
  set (lines := List.filter nonblank (split newline content)).
  assert (Hlines : forall line, In line lines -> parses_alike JSON_parse line).
  { intros line Hin. apply Halike. unfold lines in Hin.
    now apply filter_In in Hin as [Hin _]. }
  destruct (resolveSession_result filepath projectPath conversationId env w)
    as (sessionId & sessions & Hres & Hcached).
  set (wa := set_conversationSessions sessions w) in Hres.
  assert (Hw1 : w1 = snd (for_of lines
                            (processLine JSON_parse (VStr sessionId) projectPath
                               conversationId) env wa)).
  { unfold w1.
    now rewrite (processConversationFile_readable filepath projectPath conversationId
                   content (VStr sessionId) env w wa Hid Hread Hres). }
  assert (Hcached1 : conversationSessions (this w1) !! filepath = Some sessionId).
  { pose proof (lines_keep_settings JSON_parse (VStr sessionId) projectPath
                  conversationId lines env wa) as Hkeep.
    rewrite <- Hw1 in Hkeep. unfold settings in Hkeep.
    injection Hkeep as _ Hsessions _. rewrite <- Hsessions. exact Hcached. }
  assert (Hw2 : w2 = snd (for_of lines
                            (processLine JSON_parse (VStr sessionId) projectPath
                               conversationId) env' w1)).
  { unfold w2.
    now rewrite (processConversationFile_readable filepath projectPath conversationId
                   content (VStr sessionId) env' w1 w1 Hid Hread'
                   (resolveSession_cached filepath _ _ sessionId env' w1 Hcached1)). }
  rewrite Hw2.
  apply (settled_lines_are_quiet JSON_parse).
  intros line Hin. rewrite Hw1.
  now apply (lines_settle JSON_parse).
Qed.
End RereadingFiles.

Lemma rereading_a_file_changes_nothing_witness :
  exists w : World Mock.t,
    fresh Fixture.JSON_parse Arg.empty Fixture.env = Return w
    /\ let w1 := snd (processConversationFile Fixture.JSON_parse Fixture.conv1
                        Fixture.env w) in
       let w2 := snd (processConversationFile Fixture.JSON_parse Fixture.conv1
                        Fixture.env w1) in
       this w2 = this w1 /\ console w2 = console w1.
Proof.
  once_constructed w.
  apply (rereading_a_file_changes_nothing Fixture.JSON_parse Fixture.conv1
           (Fixture.m1_line ++ String newline EmptyString) Fixture.env Fixture.env).
  - vm_compute. reflexivity.
  - vm_compute. reflexivity.
  - intros line _ n n'. unfold Fixture.JSON_parse.
    destruct (String.eqb line Fixture.m1_line); [split; reflexivity|].
    destruct (String.eqb line Fixture.undated_line); [split; reflexivity|].
    destruct (String.eqb line "null"); [split; reflexivity | exact I].
Defined.

(** ** What the watcher keeps, from what [processMessage] keeps *)

Section Lifting.
Context {L : Type} `{!Langfuse L} {V : Type}.
Variable JSON_parse : string -> positive -> option (value * positive).
Variable view : World L -> V.
Variable rel : V -> V -> Prop.
Hypothesis rel_refl : forall v, rel v v.
Hypothesis rel_trans : forall a b c, rel a b -> rel b c -> rel a c.
Hypothesis view_console : forall c w, view (set_console c w) = view w.
Hypothesis view_next_ref : forall n w, view (set_next_ref n w) = view w.
Hypothesis view_sessions : forall m w, view (set_conversationSessions m w) = view w.
Hypothesis processMessage_keeps_view :
  forall entry sessionId projectPath conversationId,
    keeps view rel (processMessage entry sessionId projectPath conversationId).

Lemma processConversationFile_keeps_view (filepath : string) :
  keeps view rel (processConversationFile JSON_parse filepath).
Proof.
  unfold processConversationFile.
  apply keeps_try_catch; [assumption | | ].
  2:{ intros e env w. simpl. rewrite view_console. apply rel_refl. }
  destruct (_ || _); [apply keeps_ret; assumption|].
  destruct (at_index _ _) as [encodedProject|]; [|apply keeps_throw; assumption].
  apply keeps_bind; [assumption | | intros sessionId].
  { intros env w. unfold resolveSession, bind, gets, modify, ret.
    destruct (negb _); simpl; rewrite ?view_sessions; apply rel_refl. }
  apply keeps_bind; [assumption | | intros content].
  { intros env w. apply rel_refl. }
  apply keeps_for_of; [assumption | assumption | intros line].
  unfold processLine.
  apply keeps_try_catch; [assumption | | intros e; apply keeps_ret; assumption].
  apply keeps_bind; [assumption | | intros entry].
  - apply parse_keeps; assumption.
  - apply processMessage_keeps_view.
Qed.

Lemma watch_keeps_view (events : list (Env * string)) (w : World L) :
  rel (view w) (view (watch JSON_parse events w)).
Proof.
  revert w. induction events as [|[env filepath] events IH]; intros w; simpl.
  - apply rel_refl.
  - eapply rel_trans; [|apply IH].
    apply (processConversationFile_keeps_view filepath env w).
Qed.
End Lifting.

(** ** Dry run *)

Lemma processMessage_forward_dry_run {L : Type} `{!Langfuse L}
    (entry msgType uuid sessionId : value) (projectPath conversationId : string)
    (env : Env) (w : World L) :
  dryRun (options (this w)) = true ->
  this (snd (processMessage_forward entry msgType uuid sessionId
               projectPath conversationId env w)) = this w.
Proof.
  intros Hdry.
  destruct (get entry "message") as [message|] eqn:Hm.
  2:{ unfold processMessage_forward, bind at 1, read. now rewrite Hm. }
  rewrite (forward_dated _ _ _ _ _ _ message) by exact Hm.
  destruct (timestamp_of entry env); [|reflexivity].
  destruct (extractText message); try reflexivity.
  unfold bind, console_log, modify, gets. simpl. now rewrite Hdry.
Qed.

(** In dry-run mode a message changes nothing of the instance but the
    set of ids. *)
Lemma processMessage_dry_run {L : Type} `{!Langfuse L}
    (entry sessionId : value) (projectPath conversationId : string)
    (env : Env) (w : World L) :
  dryRun (options (this w)) = true ->
  let w' := snd (processMessage entry sessionId projectPath conversationId env w) in
  langfuse (this w') = langfuse (this w) /\ options (this w') = options (this w).
Proof.
  intros Hdry w'.
  split; [|apply (processMessage_keeps_fields entry sessionId projectPath
                    conversationId env w)].
  unfold w'.
  destruct (get entry "type") as [msgType|] eqn:Ht.
  2:{ now rewrite processMessage_without_entry. }
  destruct (includes [VStr "user"; VStr "assistant"] msgType) eqn:Hk.
  2:{ now rewrite (processMessage_other_kind entry msgType). }
  destruct (get_total entry "type" msgType "uuid" Ht) as (uuid & Hu).
  destruct (truthy uuid) eqn:Htruthy.
  2:{ rewrite (processMessage_dropped entry uuid); auto. }
  destruct (Set_has (processedMessages (this w)) uuid) eqn:Hseen.
  { rewrite (processMessage_dropped entry uuid); auto. }
  rewrite (processMessage_fresh entry msgType uuid) by assumption.
  now rewrite processMessage_forward_dry_run.
Qed.

(** X10. A dry run never reaches the client. On a monitor in dry-run
    mode, whatever files the watcher reports and whatever they hold,
    the client field and the options are afterwards what they were: no
    trace, generation or flush is ever requested. The ids are recorded
    as in any mode. *)
Theorem dry_run_never_reaches_the_client {L : Type} `{!Langfuse L}
    (JSON_parse : string -> positive -> option (value * positive))
    (events : list (Env * string)) (w : World L) :
  dryRun (options (this w)) = true ->
  let w' := watch JSON_parse events w in
  langfuse (this w') = langfuse (this w)
  /\ options (this w') = options (this w)
  /\ ids_kept (processedMessages (this w)) (processedMessages (this w')).
Proof.
  intros Hdry w'.
  pose proof (watch_keeps_view JSON_parse
                (fun w : World L => (options (this w), langfuse (this w)))
                (fun a b => dryRun (fst a) = true -> b = a)) as Hwatch.
  simpl in Hwatch.
  assert (Hkeep : (options (this w'), langfuse (this w'))
                  = (options (this w), langfuse (this w))).
  { apply Hwatch; try reflexivity; try assumption.
    - intros a b c Hab Hbc Ha. rewrite (Hbc ltac:(now rewrite (Hab Ha))). now apply Hab.
    - intros entry sessionId projectPath conversationId env0 w0 Hdry0. simpl in Hdry0.
      destruct (processMessage_dry_run entry sessionId projectPath conversationId
                  env0 w0 Hdry0) as [-> ->]. reflexivity. }
  injection Hkeep as -> ->.
  split; [reflexivity|]. split; [reflexivity|]. apply watch_keeps_ids.
Qed.

Lemma dry_run_never_reaches_the_client_witness :
  exists w : World Mock.t,
    fresh Fixture.JSON_parse Fixture.dry_run Fixture.env = Return w
    /\ let w' := watch Fixture.JSON_parse [(Fixture.env, Fixture.conv1)] w in
       langfuse (this w') = None
       /\ options (this w') = options (this w)
       /\ ids_kept [] (processedMessages (this w')).
Proof.
  once_constructed w.
  apply (dry_run_never_reaches_the_client Fixture.JSON_parse
           [(Fixture.env, Fixture.conv1)] w).
  reflexivity.
Defined.

(** ** The client and the mode *)

Section Mode.
Context {L : Type} `{!Langfuse L}.

Lemma call_langfuse_keeps_client (method : string) (f : L -> completion unit * L) :
  keeps (fun w => (options (this w), has_client w)) eq (call_langfuse method f).
Proof.
  intros env w. unfold call_langfuse, has_client.
  destruct (langfuse (this w)) as [l|] eqn:Hl; simpl; [|now rewrite Hl].
  destruct (f l) as [r l']. simpl. reflexivity.
Qed.

Lemma processMessage_keeps_client
    (entry sessionId : value) (projectPath conversationId : string) :
  keeps (fun w => (options (this w), has_client w)) eq
    (processMessage entry sessionId projectPath conversationId).
Proof.
  assert (Hrefl : forall v : Options * bool, v = v) by reflexivity.
  pose proof (@eq_trans (Options * bool)) as Htr.
  pose proof call_langfuse_keeps_client as Hcall.
  assert (Hlog : forall s, keeps (fun w : World L => (options (this w), has_client w)) eq
                             (console_log s)) by (intros s env w; reflexivity).
  assert (Herr : forall s, keeps (fun w : World L => (options (this w), has_client w)) eq
                             (console_error s)) by (intros s env w; reflexivity).
  unfold processMessage, processMessage_forward.
  repeat first
    [ apply keeps_ret; assumption | apply keeps_throw; assumption
    | apply keeps_gets; assumption | apply keeps_asks; assumption
    | apply keeps_read; assumption
    | apply keeps_lift; assumption
    | apply Hcall | apply Hlog | apply Herr
    | apply keeps_modify; intros w; reflexivity
    | apply keeps_bind; [assumption | | intros ?]
    | apply keeps_try_catch; [assumption | | intros ?]
    | match goal with
      | |- keeps _ _ (if ?b then _ else _) => destruct b
      | |- keeps _ _ (match ?x with _ => _ end) => destruct x
      end ].
Qed.

(** X11. The client matches the mode. On a monitor made by the
    constructor, whatever files the watcher reports, the options stay
    what the constructor made of its argument, a dry-run monitor has no
    client and a forwarding monitor has one: forwarding never fails for
    want of a client, and dry run has none to call. *)
Theorem client_matches_the_mode
    (JSON_parse : string -> positive -> option (value * positive))
    (options_ : Arg.t) (env : Env) (w0 : World L) (events : list (Env * string)) :
  fresh JSON_parse options_ env = Return w0 ->
  let w := watch JSON_parse events w0 in
  options (this w)
  = {| historyHours := number_or (Arg.historyHours options_) 24;
       daemon := bool_or_false (Arg.daemon options_);
       dryRun := bool_or_false (Arg.dryRun options_) |}
  /\ (if dryRun (options (this w))
      then langfuse (this w) = None
      else exists client, langfuse (this w) = Some client).
Proof.
  intros Hnew w.
  destruct (fresh_monitor JSON_parse options_ env w0 Hnew)
    as (Hmade & _ & _ & _ & Hclient0).
  pose proof (watch_keeps_view JSON_parse
                (fun w : World L => (options (this w), has_client w)) eq
                ltac:(reflexivity) (@eq_trans _)
                ltac:(reflexivity) ltac:(reflexivity) ltac:(reflexivity)
                processMessage_keeps_client events w0) as Hkeep.
  fold w in Hkeep. injection Hkeep as Hoptions Hclient.
  rewrite <- Hoptions, Hmade. split; [reflexivity|].
  unfold has_client in Hclient. simpl.
  destruct (bool_or_false (Arg.dryRun options_)).
  - rewrite Hclient0 in Hclient.
    destruct (langfuse (this w)) as [client|]; [discriminate | reflexivity].
  - destruct Hclient0 as (publicKey & secretKey & baseUrl & _ & _ & _ & Hl).
    rewrite Hl in Hclient.
    destruct (langfuse (this w)) as [client|]; [eauto | discriminate].
Qed.
End Mode.

Lemma client_matches_the_mode_witness :
  exists w0 : World Mock.t,
    fresh Fixture.JSON_parse Fixture.dry_run Fixture.env = Return w0
    /\ let w := watch Fixture.JSON_parse [(Fixture.env, Fixture.conv1)] w0 in
       options (this w) = {| historyHours := 24; daemon := false; dryRun := true |}
       /\ langfuse (this w) = None.
Proof.
  once_constructed w0.
  exact (client_matches_the_mode Fixture.JSON_parse Fixture.dry_run Fixture.env w0
           [(Fixture.env, Fixture.conv1)] eq_refl).
Defined.

(** ** The echo line *)

Lemma units_of_a_continuation (z : Z) :
  (128 <= z < 192)%Z -> units (ascii_of_N (Z.to_N z)) = 0%nat.
Proof.
  intros Hz. unfold units. rewrite N_ascii_embedding by lia.
  destruct (N.ltb_spec (Z.to_N z) 128); [lia|].
  destruct (N.ltb_spec (Z.to_N z) 192); [reflexivity | lia].
Qed.

Lemma high_surrogate_length (c : ascii) (s : string) :
  utf16_length (high_surrogate c s) = 1%nat.
Proof.
  unfold high_surrogate. cbv zeta. unfold utf16_length.
  repeat match goal with
         | |- context [units (ascii_of_N (Z.to_N (128 + ?x mod 64)))] =>
             rewrite (units_of_a_continuation (128 + x mod 64))
               by (pose proof (Z.mod_pos_bound x 64 ltac:(lia)); lia)
         end.
  reflexivity.
Qed.

Lemma units_at_most_two (c : ascii) : (units c <= 2)%nat.
Proof. unfold units. repeat destruct (_ <? _)%N; lia. Qed.

(** [substring(0, n)] has at most [n] code units. *)
Lemma substring0_length (n : nat) (s : string) :
  (utf16_length (substring0 n s) <= n)%nat.
Proof.
  revert n. induction s as [|c s IH]; intros n; simpl; [lia|].
  pose proof (units_at_most_two c) as Hc.
  destruct (units c) as [|[|k]] eqn:Hunits.
  - simpl. rewrite Hunits. apply IH.
  - destruct n as [|n]; simpl; [lia|]. rewrite Hunits. specialize (IH n). lia.
  - destruct n as [|[|n]]; [simpl; lia | |].
    + rewrite high_surrogate_length. lia.
    + simpl. rewrite Hunits. specialize (IH n). lia.
Qed.

Lemma replace_all_units (c d : ascii) (s : string) :
  units c = units d -> utf16_length (replace_all c d s) = utf16_length s.
Proof.
  intros Hcd. induction s as [|x s IH]; simpl; [reflexivity|].
  rewrite IH. destruct (Ascii.eqb_spec x c) as [->|_]; [now rewrite Hcd | reflexivity].
Qed.

Lemma segment_characters (sep c : ascii) (s seg : string) :
  contains c s = false -> In seg (split sep s) -> contains c seg = false.
Proof.
  revert seg. induction s as [|x s IH]; simpl; intros seg Hs Hin.
  - destruct Hin as [<-|[]]. reflexivity.
  - apply orb_false_iff in Hs as [Hx Hs].
    destruct (Ascii.eqb x sep).
    + destruct Hin as [<-|Hin]; [reflexivity | now apply IH].
    + pose proof (split_nonempty sep s) as Hne.
      destruct (split sep s) as [|h tl]; [contradiction|].
      destruct Hin as [<-|Hin].
      * simpl. rewrite Hx. apply IH; [exact Hs | now left].
      * apply IH; [exact Hs | now right].
Qed.

(** X12. The echo is one short line. When the project path holds no
    newline, the printed line holds none either, whatever the text, and
    its length, in the code units [length] counts, is at most 60 more
    than the length of the line of an empty text. *)
Theorem echo_is_one_short_line (msgType : value) (projectPath text : string) :
  contains newline projectPath = false ->
  contains newline (echo msgType projectPath text) = false
  /\ (utf16_length (echo msgType projectPath text)
      <= utf16_length (echo msgType projectPath "") + 60)%nat.
Proof.
  intros Hpath. unfold echo. cbv zeta.
  set (projectName := default "undefined" (pop (split "/" projectPath))).
  set (preview := replace_all newline " " (substring0 60 text)).
  assert (Hname : contains newline projectName = false).
  { unfold projectName, pop.
    destruct (last (split "/" projectPath)) as [segment|] eqn:Hlast; [|reflexivity].
    apply last_Some_elem_of, list_elem_of_In in Hlast. simpl.
    now apply (segment_characters "/" newline projectPath). }
  assert (Hpreview : contains newline preview = false)
    by (apply replace_all_removes; discriminate).
  assert (Hlength : (utf16_length preview <= 60)%nat)
    by (unfold preview; rewrite replace_all_units by reflexivity;
        apply substring0_length).
  split.
  - rewrite !contains_app, Hname, Hpreview.
    destruct (strict_eq msgType (VStr "user")); reflexivity.
  - rewrite !utf16_length_app. simpl (utf16_length (replace_all _ _ _)). lia.
Qed.

Lemma echo_is_one_short_line_witness :
  let text := "Ligne une, été" ++ String newline "ligne deux 😀" in
  contains newline (echo (VStr "user") "/test/project" text) = false
  /\ (utf16_length (echo (VStr "user") "/test/project" text)
      <= utf16_length (echo (VStr "user") "/test/project" "") + 60)%nat.
Proof.
  apply (echo_is_one_short_line (VStr "user") "/test/project").
  reflexivity.
Defined.

(** The cut counts code units, not bytes: [é] is one unit in two bytes,
    a character beyond the basic plane is two units in four bytes, and a
    cut between its two units leaves the high surrogate (here U+D83D,
    the bytes ED A0 BD). *)
Example substring0_counts_code_units :
  utf16_length "ééé😀" = 5%nat
  /\ substring0 3 "ééé😀!" = "ééé"
  /\ substring0 4 "ééé😀!"
     = "ééé" ++ String (ascii_of_N 237) (String (ascii_of_N 160)
                                           (String (ascii_of_N 189) EmptyString))
  /\ substring0 5 "ééé😀!" = "ééé😀"
  /\ substring0 60 "short" = "short".
Proof. repeat split; vm_compute; reflexivity. Qed.

(** ** [start] and [checkStatus] without a projects directory *)

(** X13. [start] fails fast. When the projects directory does not
    exist, [start] throws ["Claude projects directory not found: ..."]
    before it prints, scans or records anything: the state is what it
    was. *)
Theorem start_fails_fast {L : Type} `{!Langfuse L}
    (JSON_parse : string -> positive -> option (value * positive))
    (env : Env) (w : World L) :
  projects env = None ->
  start JSON_parse env w
  = (Throw (Error ("Claude projects directory not found: "
                   ++ path_join [homedir env; ".claude"; "projects"])),
     w).
Proof.
  intros Hnone. unfold start, bind at 1, getClaudeProjectsDir. now rewrite Hnone.
Qed.

Lemma start_fails_fast_witness :
  let env := {| Date_now := 0; homedir := "/home/u/"; projects := None;
                readFileSync := fun _ => Throw (Error "ENOENT");
                configFile_exists := false; LANGFUSE_HOST := None;
                LANGFUSE_PUBLIC_KEY := None; LANGFUSE_SECRET_KEY := None |} in
  exists w : World Mock.t,
    fresh Fixture.JSON_parse Arg.empty env = Return w
    /\ start Fixture.JSON_parse env w
       = (Throw (Error "Claude projects directory not found: /home/u/.claude/projects"),
          w).
Proof.
  intros env. once_constructed w.
  apply (start_fails_fast Fixture.JSON_parse env w). reflexivity.
Defined.

(** X14. [checkStatus] assigns nothing but the console. It ends with
    the line that the monitor is ready to run exactly when the projects
    directory exists, both keys of the configuration are truthy and its
    host has a string. It throws exactly when the directory exists and
    either the configuration is [null] or, with both keys truthy, the
    host has no string. Without the directory it stops after reporting
    it, before it looks at the configuration. *)
Theorem checkStatus_reports {L : Type} `{!Langfuse L} (env : Env) (w : World L) :
  let r := checkStatus env w in
  let ready := Log (nl ++ "✅ Monitor ready to run") in
  this (snd r) = this w
  /\ exists printed,
       console (snd r) = (console w ++ printed)%list
       /\ (In ready printed
           <-> projects env <> None
               /\ credentials (config (this w)) = Some true
               /\ exists url, host_text (config (this w)) = Return url)
       /\ (fst r <> Return tt
           <-> projects env <> None
               /\ (credentials (config (this w)) = None
                   \/ credentials (config (this w)) = Some true
                      /\ exists e, host_text (config (this w)) = Throw e))
       /\ (projects env = None ->
           printed = [Log "🔍 Claude Langfuse Monitor Status";
                      Log (repeat_string "=" 50);
                      Log "❌ Claude projects directory not found"]).
Proof.
  intros r ready. unfold r, checkStatus, bind, try_catch, getClaudeProjectsDir,
    console_log, modify, gets, read, lift, credentials, host_text.
  unfold ret, throw.
  cbn -[get to_string truthy nl repeat_string].
  destruct (projects env) as [tree|]; cbn -[get to_string truthy nl repeat_string].
  2:{ split; [reflexivity|].
      eexists. split; [rewrite <- ?app_assoc; simpl; reflexivity|].
      split; [|split; [|reflexivity]].
      - split; [|intros (Hno & _); contradiction].
        intros Hin. repeat destruct Hin as [Hin|Hin]; discriminate || contradiction.
      - split; [intros Hno; now destruct Hno | intros (Hno & _); contradiction]. }
  destruct (get (config (this w)) "publicKey") as [publicKey|] eqn:Hpk.
  2:{ cbn -[get to_string truthy nl repeat_string]. split; [reflexivity|].
      eexists. split; [rewrite <- ?app_assoc; simpl; reflexivity|].
      split; [|split; [|discriminate]].
      - split; [|intros (_ & ? & _); discriminate].
        intros Hin. repeat destruct Hin as [Hin|Hin]; discriminate || contradiction.
      - split; [intros _; split; [discriminate | now left] | discriminate]. }
  destruct (get_total _ _ _ "secretKey" Hpk) as (secretKey & Hsk).
  destruct (get_total _ _ _ "host" Hpk) as (host & Hhost).
  rewrite ?Hsk, ?Hhost.
  destruct (truthy publicKey);
    cbn -[get to_string truthy nl repeat_string]; rewrite ?Hsk;
    [destruct (truthy secretKey)|]; cbn -[get to_string truthy nl repeat_string];
    rewrite ?Hhost.
  1:{ destruct (to_string host) as [url|e]; cbn -[nl repeat_string];
        (split; [reflexivity|]);
        eexists; (split; [rewrite <- ?app_assoc; simpl; reflexivity|]);
        (split; [|split; [|discriminate]]).
      - split; [intros _; repeat split; eauto; discriminate|].
        intros _. unfold ready. simpl. tauto.
      - split; [intros Hno; now destruct Hno|].
        intros (_ & [?|(_ & e & ?)]); discriminate.
      - split; [|intros (_ & _ & url & ?); discriminate].
        intros Hin. repeat destruct Hin as [Hin|Hin]; discriminate || contradiction.
      - split; [|discriminate].
        intros _. split; [discriminate|]. right. eauto. }
  all: split; [reflexivity|];
    eexists; (split; [rewrite <- ?app_assoc; simpl; reflexivity|]);
    (split; [|split; [|discriminate]]);
    [ split; [|intros (_ & ? & _); discriminate];
      intros Hin; repeat destruct Hin as [Hin|Hin]; discriminate || contradiction
    | split; [intros Hno; now destruct Hno|];
      intros (_ & [?|(? & _)]); discriminate ].
Qed.

Lemma checkStatus_reports_witness :
  exists w : World Mock.t,
    fresh Fixture.JSON_parse Fixture.dry_run Fixture.null_config_env = Return w
    /\ config (this w) = VNull
    /\ this (snd (checkStatus Fixture.null_config_env w)) = this w
    /\ fst (checkStatus Fixture.null_config_env w) <> Return tt.
Proof.
  once_constructed w. split; [reflexivity|].
  destruct (checkStatus_reports Fixture.null_config_env w)
    as (Hthis & printed & _ & _ & Hthrows & _).
  split; [exact Hthis|]. apply Hthrows. split; [discriminate | left; reflexivity].
Defined.

(** The status command in the environment of the tests, where no
    credentials are set. *)
Example checkStatus_in_the_test_environment :
  exists w : World Mock.t,
    fresh Fixture.JSON_parse Fixture.dry_run Fixture.env = Return w
    /\ checkStatus Fixture.env w
       = (Return tt,
          set_console
            [Log "🔍 Claude Langfuse Monitor Status";
             Log (repeat_string "=" 50);
             Log "✅ Claude projects directory found";
             Log "   /home/u/.claude/projects";
             Log "❌ Langfuse credentials not configured";
             Log "   Run: claude-langfuse config --public-key <key> --secret-key <key>"]
            w).
Proof. once_constructed w. vm_compute. reflexivity. Qed.

(** ** The backfill *)

Section Backfill.
Context {L : Type} `{!Langfuse L}.
Variable JSON_parse : string -> positive -> option (value * positive).


End Backfill.


(** A conversation that is a dangling link stops the backfill: the
    error of [fs.statSync] leaves the call after its first line, before
    any file is processed. *)
Example backfill_stops_at_a_dangling_link :
  let env :=
    {| Date_now := 1735693200000; homedir := "/home/u";
       projects :=
         Some (Return [Directory "a-b-c"
                         (Return [File "conv1.jsonl" (Return 1735689600000);
                                  File "gone.jsonl"
                                    (Throw (Error "ENOENT: no such file or directory, stat"))])]);
       readFileSync := readFileSync Fixture.env;
       configFile_exists := false; LANGFUSE_HOST := None;
       LANGFUSE_PUBLIC_KEY := None; LANGFUSE_SECRET_KEY := None |} in
  exists w : World Mock.t,
    fresh Fixture.JSON_parse Arg.empty env = Return w
    /\ processExistingHistory Fixture.JSON_parse env w
       = (Throw (Error "ENOENT: no such file or directory, stat"),
          set_console [Log "📚 Processing last 24 hours..."] w).
Proof. intros env. once_constructed w. vm_compute. reflexivity. Qed.

(** ** The number of processed ids *)

(** X16. The set of processed ids grows by exactly one id for an entry
    of kind user or assistant with an id that is not yet in the set, and
    not at all for any other entry; this holds however the call ends,
    also when the echo throws or the client refuses the record. *)
Theorem id_count_grows_by_one {L : Type} `{!Langfuse L}
    (entry msgType uuid sessionId : value) (projectPath conversationId : string)
    (env : Env) (w : World L) :
  get entry "type" = Some msgType ->
  get entry "uuid" = Some uuid ->
  let w' := snd (processMessage entry sessionId projectPath conversationId env w) in
  Set_size (processedMessages (this w'))
  = (Set_size (processedMessages (this w))
     + if includes [VStr "user"; VStr "assistant"] msgType
          && truthy uuid
          && negb (Set_has (processedMessages (this w)) uuid)
       then 1 else 0)%Z.
Proof.
  intros Ht Hu w'. unfold w'.
  destruct (includes [VStr "user"; VStr "assistant"] msgType) eqn:Hk.
  2:{ rewrite (processMessage_other_kind entry msgType) by assumption. simpl. lia. }
  destruct (truthy uuid) eqn:Htruthy.
  2:{ rewrite (processMessage_dropped entry uuid) by auto. simpl. lia. }
  destruct (Set_has (processedMessages (this w)) uuid) eqn:Hseen.
  { rewrite (processMessage_dropped entry uuid) by auto. simpl. lia. }
  rewrite (processMessage_fresh entry msgType uuid) by assumption.
  rewrite processMessage_forward_ids. simpl.
  now apply Set_size_add_fresh.
Qed.

Lemma id_count_grows_by_one_witness :
  exists w : World Mock.t,
    fresh Fixture.JSON_parse Arg.empty Fixture.env = Return w
    /\ let w' := snd (processMessage Fixture.numeric_text (VStr "session-123")
                        "/test/project" "conv-123" Fixture.env w) in
       Set_size (processedMessages (this w')) = 1%Z.
Proof.
  once_constructed w.
  apply (id_count_grows_by_one Fixture.numeric_text (VStr "user") (VStr "u1")
           (VStr "session-123") "/test/project" "conv-123" Fixture.env w);
    reflexivity.
Defined.

(** ** What goes to the client *)


